(** * DevPlanner AI: the task plan and its controller

    A verification development for [Note App/Traycer AI.tsx].  The file has
    one component, [App], whose state is a prompt, a plan, a loading flag and
    an error message, and two handlers: [handleToggleTask], which flips the
    status of a task of the stored plan, and [handleSubmit], which asks a
    remote generator for a plan and stores the decoded answer or an error
    message.

    The development is laid out as follows.
    - [JS]: the JavaScript data the handlers work on: strings as sequences of
      UTF-16 code units, numbers, the values that [JSON.parse] and
      [response.json()] deliver (typed [any] in the source), property reads,
      optional chaining, truthiness, object spread.
    - [Model]: the plan as the interfaces [Task] and [Plan] declare it, and
      the toggle under those types.
    - [Controller]: the component state, the handlers as the engine runs
      them, and the event system they form together with the network.  What
      the platform supplies ([JSON.parse] and the wording of the engine's
      [TypeError]) is a section variable there.
    - [Reference]: an instance of what the platform supplies, to run the
      controller on concrete answers.
    - The properties: the toggle on typed plans and its agreement with the
      handler that the engine runs, then the controller. *)

From Stdlib Require Import List Bool ZArith NArith Lia String Ascii.
Import ListNotations.

Set Implicit Arguments.

(* ================================================================= *)
(** ** JavaScript data *)
(* ================================================================= *)

Module JS.

Local Open Scope N_scope.

(** A string is a sequence of UTF-16 code units. *)
Definition code_unit := N.
Definition js_string := list code_unit.

(** String literals of the source, written as Rocq strings. *)
Definition lit (s : string) : js_string :=
  List.map N_of_ascii (list_ascii_of_string s).

(** The same, with [~] standing for the double quote, which the literals of
    the source contain. *)
Definition quoted (s : string) : js_string :=
  List.map (fun c => if N.eqb c 126 then 34 else c) (lit s).

Fixpoint str_eqb (s t : js_string) : bool :=
  match s, t with
  | [], [] => true
  | a :: s', b :: t' => N.eqb a b && str_eqb s' t'
  | _, _ => false
  end.

(** [WhiteSpace] and [LineTerminator] of ECMAScript: the code units that
    [String.prototype.trim] strips. *)
Definition is_whitespace (c : code_unit) : bool :=
  ((9 <=? c) && (c <=? 13))                (* TAB LF VT FF CR *)
  || (c =? 32) || (c =? 160)               (* SP, NBSP *)
  || (c =? 5760)                           (* U+1680 *)
  || ((8192 <=? c) && (c <=? 8202))        (* U+2000 .. U+200A *)
  || (c =? 8232) || (c =? 8233)            (* LS, PS *)
  || (c =? 8239) || (c =? 8287)            (* U+202F, U+205F *)
  || (c =? 12288) || (c =? 65279).         (* U+3000, U+FEFF *)

Fixpoint trimStart (s : js_string) : js_string :=
  match s with
  | [] => []
  | c :: s' => if is_whitespace c then trimStart s' else s
  end.

Definition trimEnd (s : js_string) : js_string :=
  rev (trimStart (rev s)).

(** [s.trim()] *)
Definition trim (s : js_string) : js_string := trimEnd (trimStart s).

(** [s.includes(t)] *)
Fixpoint starts_with (t s : js_string) : bool :=
  match t, s with
  | [], _ => true
  | a :: t', b :: s' => N.eqb a b && starts_with t' s'
  | _ :: _, [] => false
  end.

Fixpoint includes (s t : js_string) : bool :=
  starts_with t s ||
  match s with
  | [] => false
  | _ :: s' => includes s' t
  end.

(** Decimal digits of a natural number, as [String(n)] prints an integer. *)
Fixpoint uint_digits (d : Decimal.uint) : js_string :=
  match d with
  | Decimal.Nil => []
  | Decimal.D0 d' => 48 :: uint_digits d'
  | Decimal.D1 d' => 49 :: uint_digits d'
  | Decimal.D2 d' => 50 :: uint_digits d'
  | Decimal.D3 d' => 51 :: uint_digits d'
  | Decimal.D4 d' => 52 :: uint_digits d'
  | Decimal.D5 d' => 53 :: uint_digits d'
  | Decimal.D6 d' => 54 :: uint_digits d'
  | Decimal.D7 d' => 55 :: uint_digits d'
  | Decimal.D8 d' => 56 :: uint_digits d'
  | Decimal.D9 d' => 57 :: uint_digits d'
  end.

Definition N_digits (n : N) : js_string := uint_digits (N.to_uint n).

(** *** Numbers

    A number is held as the decimal [mant * 10 ^ expo] that a JSON text
    denotes; an integer [z] is [Num z 0].  The rounding of a decimal to the
    nearest double is not modelled, and neither are [NaN] and the
    infinities, which no JSON text denotes. *)
Record number := Num { mant : Z; expo : Z }.

Definition num_of_Z (z : Z) : number := Num z 0.

(** [x === y] on numbers: equality of the denoted values. *)
Definition num_eqb (x y : number) : bool :=
  let e := Z.min (expo x) (expo y) in
  (mant x * 10 ^ (expo x - e) =? mant y * 10 ^ (expo y - e))%Z.

(** *** Values

    What [JSON.parse] and [response.json()] return, and [undefined], which a
    read of a missing property yields.  An object is the list of its own
    properties in the order the language keeps them, one binding per
    key. *)
#[warnings="-register-all"] Inductive value :=
| VUndefined
| VNull
| VBool (b : bool)
| VNum (n : number)
| VStr (s : js_string)
| VArr (elems : list value)
| VObj (props : list (js_string * value)).

(** An exception object; the program reads nothing of it but [message]. *)
Record Error := { message : js_string }.

(** The completion of an evaluation that may throw. *)
Inductive completion (A : Type) :=
| Returns (a : A)
| Throws (e : Error).
Arguments Returns {A} a.
Arguments Throws {A} e.

(** [ToBoolean] *)
Definition truthy (v : value) : bool :=
  match v with
  | VUndefined | VNull => false
  | VBool b => b
  | VNum n => negb (mant n =? 0)%Z
  | VStr s => match s with [] => false | _ :: _ => true end
  | VArr _ | VObj _ => true
  end.

Definition nullish (v : value) : bool :=
  match v with
  | VUndefined | VNull => true
  | _ => false
  end.

Fixpoint lookup (k : js_string) (props : list (js_string * value))
  : option value :=
  match props with
  | [] => None
  | (k', x) :: rest => if str_eqb k' k then Some x else lookup k rest
  end.

(** The value of [v.k] for a [v] that is neither [null] nor [undefined] and
    a name [k] that is not an index and not a builtin property ([length],
    the methods of the prototypes): every name the program reads
    ([candidates], [content], [parts], [text], [tasks], [id], [status]) is
    such a name.  Only an object has such a property. *)
Definition get_prop (v : value) (k : js_string) : value :=
  match v with
  | VObj props =>
      match lookup k props with
      | Some x => x
      | None => VUndefined
      end
  | _ => VUndefined
  end.

(** The value of [v[i]] for a [v] that is neither [null] nor [undefined]:
    an element of an array, a one-unit string of a string, the property
    named by the digits of [i] of an object. *)
Definition get_index (v : value) (i : nat) : value :=
  match v with
  | VArr elems => nth i elems VUndefined
  | VStr s =>
      match nth_error s i with
      | Some c => VStr [c]
      | None => VUndefined
      end
  | VObj props =>
      match lookup (N_digits (N.of_nat i)) props with
      | Some x => x
      | None => VUndefined
      end
  | _ => VUndefined
  end.

(** [v.k]: [None] stands for the [TypeError] of a read from [null] or
    [undefined]. *)
Definition member (v : value) (k : js_string) : option value :=
  if nullish v then None else Some (get_prop v k).

(** [v?.k] and [v?.[i]] *)
Definition opt_member (v : value) (k : js_string) : value :=
  if nullish v then VUndefined else get_prop v k.

Definition opt_index (v : value) (i : nat) : value :=
  if nullish v then VUndefined else get_index v i.

(** [v === n] for a number [n], [v === s] for a string [s]: strict
    equality never converts. *)
Definition strict_eq_num (v : value) (n : number) : bool :=
  match v with
  | VNum m => num_eqb m n
  | _ => false
  end.

Definition strict_eq_str (v : value) (s : js_string) : bool :=
  match v with
  | VStr t => str_eqb t s
  | _ => false
  end.

(** The own enumerable properties that a spread [{...v}] copies. *)
Fixpoint indexed (i : nat) (l : list value) : list (js_string * value) :=
  match l with
  | [] => []
  | x :: l' => (N_digits (N.of_nat i), x) :: indexed (S i) l'
  end.

Definition own_enumerable (v : value) : list (js_string * value) :=
  match v with
  | VObj props => props
  | VArr elems => indexed 0 elems
  | VStr s => indexed 0 (List.map (fun c => VStr [c]) s)
  | _ => []
  end.

(** Defining [k] on an object: an existing binding keeps its place, a new
    one goes last. *)
Fixpoint set_prop (k : js_string) (x : value)
  (props : list (js_string * value)) : list (js_string * value) :=
  match props with
  | [] => [(k, x)]
  | (k', y) :: rest =>
      if str_eqb k' k then (k', x) :: rest else (k', y) :: set_prop k x rest
  end.

(** [{ ...v, k: x }] *)
Definition spread_with (v : value) (k : js_string) (x : value) : value :=
  VObj (set_prop k x (own_enumerable v)).

(** [v.map(f)], where [None] is a thrown [TypeError]: [v] is not an array
    (it has no [map], or is [undefined]), or [f] throws at an element. *)
Fixpoint map_throwing (f : value -> option value) (l : list value)
  : option (list value) :=
  match l with
  | [] => Some []
  | x :: l' =>
      match f x with
      | None => None
      | Some y =>
          match map_throwing f l' with
          | None => None
          | Some ys => Some (y :: ys)
          end
      end
  end.

Definition array_map (v : value) (f : value -> option value) : option value :=
  match v with
  | VArr elems => option_map VArr (map_throwing f elems)
  | _ => None
  end.

End JS.

Import JS.

(* ================================================================= *)
(** ** The plan as the interfaces declare it *)
(* ================================================================= *)

(** [status: 'todo' | 'done'] *)
Inductive Status := todo | done.

(** [interface Task].  The [id] is a number in the source; the generator is
    told to number the tasks 1, 2, ..., so it is an integer here. *)
Module Task.
Record t := mk {
  id : Z;
  title : js_string;
  description : js_string;
  status : Status;
  file_path : option js_string;
  code_snippet : option js_string
}.
End Task.

(** [interface Plan] *)
Module Plan.
Record t := mk {
  title : js_string;
  tasks : list Task.t
}.
End Plan.

Module Model.

Local Open Scope Z_scope.

(** [{ ...task, status: task.status === 'todo' ? 'done' : 'todo' }] *)
Definition toggled (task : Task.t) : Task.t :=
  {| Task.id := Task.id task;
     Task.title := Task.title task;
     Task.description := Task.description task;
     Task.status := match Task.status task with
                    | todo => done
                    | done => todo
                    end;
     Task.file_path := Task.file_path task;
     Task.code_snippet := Task.code_snippet task |}.

(** The function that [handleToggleTask] hands to [setPlan], at a plan that
    is not [null]:
    [{ ...prevPlan, tasks: prevPlan.tasks.map(task =>
         task.id === taskId ? { ...task, status: ... } : task) }]. *)
Definition toggleTask (prevPlan : Plan.t) (taskId : Z) : Plan.t :=
  {| Plan.title := Plan.title prevPlan;
     Plan.tasks :=
       List.map (fun task =>
                   if Task.id task =? taskId then toggled task else task)
                (Plan.tasks prevPlan) |}.

(** The state updater itself, on [Plan | null]:
    [prevPlan => { if (!prevPlan) return null; return {...}; }]. *)
Definition toggle_updater (taskId : Z) (prevPlan : option Plan.t)
  : option Plan.t :=
  match prevPlan with
  | None => None
  | Some p => Some (toggleTask p taskId)
  end.

(** The JavaScript object that a typed plan is at run time. *)
Definition status_value (s : Status) : value :=
  VStr (match s with
        | todo => lit "todo"
        | done => lit "done"
        end).

Definition optional_prop (k : js_string) (o : option js_string)
  : list (js_string * value) :=
  match o with
  | Some s => [(k, VStr s)]
  | None => []
  end.

Definition task_value (task : Task.t) : value :=
  VObj ([ (lit "id", VNum (num_of_Z (Task.id task)));
          (lit "title", VStr (Task.title task));
          (lit "description", VStr (Task.description task));
          (lit "status", status_value (Task.status task)) ]
        ++ optional_prop (lit "file_path") (Task.file_path task)
        ++ optional_prop (lit "code_snippet") (Task.code_snippet task)).

Definition plan_value (p : Plan.t) : value :=
  VObj [ (lit "title", VStr (Plan.title p));
         (lit "tasks", VArr (List.map task_value (Plan.tasks p))) ].

End Model.

(* ================================================================= *)
(** ** The controller *)
(* ================================================================= *)

Module Controller.

Local Open Scope N_scope.

(** The four [useState] cells of [App]:
    [prompt], [plan: Plan | null], [isLoading], [error: string | null].
    The plan cell holds whatever [JSON.parse] returned, so it is a [value];
    [VNull] is the empty cell. *)
Record State := mkState {
  prompt : js_string;
  plan : value;
  isLoading : bool;
  error : option js_string
}.

(** The request [handleSubmit] sends: the URL, the [fetch] options, and the
    [payload] object that [JSON.stringify] serialises into the body. *)
Record Payload := mkPayload {
  contents_text : js_string;
  systemInstruction_text : js_string;
  responseMimeType : js_string
}.

Record Request := mkRequest {
  url : js_string;
  method : js_string;
  content_type : js_string;
  body : Payload
}.

(** What [await response.json()] does: resolve with the decoded body, or
    reject. *)
Inductive Body :=
| BodyJson (result : value)
| BodyRejected (err : Error).

Record Response := mkResponse {
  status : N;
  statusText : js_string;
  json : Body
}.

(** [response.ok]: the status is in the range 200 to 299. *)
Definition ok (response : Response) : bool :=
  (200 <=? status response) && (status response <=? 299).

(** What [await fetch(...)] does: reject (no connection), or resolve with a
    response. *)
Inductive FetchOutcome :=
| FetchRejected (err : Error)
| FetchResolved (response : Response).

(** The prompt text sent as [systemInstruction]. *)
Definition systemPrompt : js_string := quoted
"You are an expert software architect acting as a ~planning layer~ for a team of AI coding agents. Your role is to take a user's feature request and break it down into a detailed, step-by-step technical plan. The plan should be clear, concise, and actionable for a coding agent to execute.

    Output a JSON object that strictly adheres to the following schema. Do not output any other text, just the JSON.
    
    The JSON schema is:
    {
      ~type~: ~OBJECT~,
      ~properties~: {
        ~title~: { ~type~: ~STRING~, ~description~: ~A concise title for the overall feature plan.~ },
        ~tasks~: {
          ~type~: ~ARRAY~,
          ~items~: {
            ~type~: ~OBJECT~,
            ~properties~: {
              ~id~: { ~type~: ~NUMBER~, ~description~: ~A unique sequential ID for the task, starting from 1.~ },
              ~title~: { ~type~: ~STRING~, ~description~: ~A short, actionable title for the task.~ },
              ~description~: { ~type~: ~STRING~, ~description~: ~A detailed description of what needs to be done in this task.~ },
              ~file_path~: { ~type~: ~STRING~, ~description~: ~Optional: The primary file path that will be created or modified in this step.~ },
              ~code_snippet~: { ~type~: ~STRING~, ~description~: ~Optional: A short, relevant code snippet to guide the coding agent. Provide only the essential part, not the full file.~ },
              ~status~: { ~type~: ~STRING~, ~enum~: [~todo~], ~description~: ~The initial status of the task, which should always be 'todo'.~ }
            },
            ~required~: [~id~, ~title~, ~description~, ~status~]
          }
        }
      },
      ~required~: [~title~, ~tasks~]
    }".

Definition apiKey : js_string := [].

Definition apiUrl : js_string :=
  lit "https://generativelanguage.googleapis.com/v1beta/models/gemini-2.5-flash-preview-05-20:generateContent?key="
  ++ apiKey.

Definition payload (prompt : js_string) : Payload :=
  {| contents_text := prompt;
     systemInstruction_text := systemPrompt;
     responseMimeType := lit "application/json" |}.

Definition request (prompt : js_string) : Request :=
  {| url := apiUrl;
     method := lit "POST";
     content_type := lit "application/json";
     body := payload prompt |}.

(** [a || b] on strings *)
Definition or_else (a b : js_string) : js_string :=
  match a with
  | [] => b
  | _ :: _ => a
  end.

(** *** [handleToggleTask]

    The function handed to [setPlan], as the engine runs it on the stored
    value.  [None] is a [TypeError] thrown inside the updater, which no
    handler catches. *)
Definition toggle_task (taskId : number) (task : value) : option value :=
  match member task (lit "id") with
  | None => None
  | Some i =>
      if strict_eq_num i taskId
      then Some (spread_with task (lit "status")
                   (VStr (if strict_eq_str (get_prop task (lit "status"))
                                           (lit "todo")
                          then lit "done"
                          else lit "todo")))
      else Some task
  end.

Definition toggle_updater (taskId : number) (prevPlan : value)
  : option value :=
  if negb (truthy prevPlan) then Some VNull
  else
    match array_map (get_prop prevPlan (lit "tasks")) (toggle_task taskId) with
    | None => None
    | Some tasks' => Some (spread_with prevPlan (lit "tasks") tasks')
    end.

Definition handleToggleTask (taskId : number) (st : State) : option State :=
  match toggle_updater taskId (plan st) with
  | None => None
  | Some plan' =>
      Some {| prompt := prompt st;
              plan := plan';
              isLoading := isLoading st;
              error := error st |}
  end.

(** *** [handleSubmit] *)

(** The outcome of the synchronous part: nothing happens, or the three
    state cells are set and the request leaves. *)
Inductive Submission :=
| Ignored
| Dispatched (st' : State) (req : Request).

Definition handleSubmit (st : State) : Submission :=
  if negb (truthy (VStr (trim (prompt st)))) || isLoading st then Ignored
  else
    Dispatched {| prompt := prompt st;
                  plan := VNull;
                  isLoading := true;
                  error := None |}
               (request (prompt st)).

(** The message [catch] falls back on. *)
Definition fallback : js_string :=
  lit "An unexpected error occurred. Please try again.".

Section Platform.

(** [JSON.parse], with the conversion to a string that it applies to an
    argument that is not one. *)
Variable JSON_parse : value -> completion value.

(** The message of the [TypeError] that the engine throws when [k] is read
    from [v], [v] being [null] or [undefined]. *)
Variable TypeError_message : value -> js_string -> js_string.

(** [candidate.content?.parts?.[0]?.text], for a truthy [candidate] *)
Definition candidate_text (candidate : value) : value :=
  opt_member
    (opt_index
       (opt_member (get_prop candidate (lit "content")) (lit "parts")) 0)
    (lit "text").

(** The [try] block from the first line after [await fetch]: the plan to
    store, or the exception that reaches [catch]. *)
Definition read_response (response : Response) : completion value :=
  if negb (ok response) then
    Throws {| message := lit "API error: " ++ N_digits (status response)
                         ++ lit " " ++ statusText response |}
  else
    match json response with
    | BodyRejected err => Throws err
    | BodyJson result =>
        match member result (lit "candidates") with
        | None =>
            Throws {| message := TypeError_message result (lit "candidates") |}
        | Some candidates =>
            let candidate := opt_index candidates 0 in
            if truthy candidate && truthy (candidate_text candidate)
            then JSON_parse (candidate_text candidate)
            else Throws {| message :=
                             lit "Invalid response structure from AI model." |}
        end
    end.

Definition try_block (outcome : FetchOutcome) : completion value :=
  match outcome with
  | FetchRejected err => Throws err
  | FetchResolved response => read_response response
  end.

(** The rest of [handleSubmit], run when the request settles, on the state
    of that moment: [setPlan(parsedPlan)], or [catch] with its [setError],
    and [finally] with [setIsLoading(false)]. *)
Definition settle (outcome : FetchOutcome) (st : State) : State :=
  match try_block outcome with
  | Returns parsedPlan =>
      {| prompt := prompt st;
         plan := parsedPlan;
         isLoading := false;
         error := error st |}
  | Throws err =>
      {| prompt := prompt st;
         plan := plan st;
         isLoading := false;
         error := Some (or_else (message err) fallback) |}
  end.

(** *** The interface and the network together

    The cells as React holds them, the cells as the latest render of [App]
    read them, and the requests that have left and not yet settled.  The
    handlers on the page are those of the latest render: [handleSubmit]
    reads the [prompt] and the [isLoading] that this render read, whatever
    has been set since.  [setPrompt], the three calls of [handleSubmit]
    before its [await], the updater of [handleToggleTask] and what
    [handleSubmit] does when its request settles write the cells as they
    are.  React renders again at some point after a cell is written;
    events may come before it does. *)
Record System := mkSystem {
  ui : State;
  rendered : State;
  inflight : list Request
}.

Inductive Event :=
| Edit (text : js_string)          (* [onChange] of the textarea *)
| Submit                           (* [onSubmit] of the form *)
| Toggle (taskId : number)         (* [onToggle] of a task card *)
| Settle (n : nat) (outcome : FetchOutcome)
                                   (* the request at place [n] settles *)
| Render.                          (* React renders [App] again *)

(** A list without its element at place [n]. *)
Definition without (A : Type) (n : nat) (l : list A) : list A :=
  firstn n l ++ skipn (S n) l.

(** One event.  A submit runs [handleSubmit] on the cells its render
    read; when it goes through, its three calls write [isLoading], [error]
    and [plan] of the cells as they are, and [prompt] stays as it is.
    [None]: the event cannot occur (no request is in flight at that
    place), or an exception escaped the updater and React took the
    interface down.  A render that throws takes the interface down as
    well; the states after it are not cut out here, so what holds of every
    state reached here holds of every state the interface reaches. *)
Definition step (sys : System) (ev : Event) : option System :=
  match ev with
  | Edit text =>
      Some {| ui := {| prompt := text;
                       plan := plan (ui sys);
                       isLoading := isLoading (ui sys);
                       error := error (ui sys) |};
              rendered := rendered sys;
              inflight := inflight sys |}
  | Submit =>
      match handleSubmit (rendered sys) with
      | Ignored => Some sys
      | Dispatched st' req =>
          Some {| ui := {| prompt := prompt (ui sys);
                           plan := plan st';
                           isLoading := isLoading st';
                           error := error st' |};
                  rendered := rendered sys;
                  inflight := inflight sys ++ [req] |}
      end
  | Toggle taskId =>
      match handleToggleTask taskId (ui sys) with
      | None => None
      | Some st' =>
          Some {| ui := st';
                  rendered := rendered sys;
                  inflight := inflight sys |}
      end
  | Settle n outcome =>
      match nth_error (inflight sys) n with
      | None => None
      | Some _ =>
          Some {| ui := settle outcome (ui sys);
                  rendered := rendered sys;
                  inflight := without n (inflight sys) |}
      end
  | Render =>
      Some {| ui := ui sys; rendered := ui sys; inflight := inflight sys |}
  end.

Fixpoint run (sys : System) (evs : list Event) : option System :=
  match evs with
  | [] => Some sys
  | ev :: evs' =>
      match step sys ev with
      | None => None
      | Some sys' => run sys' evs'
      end
  end.

(** The state [App] mounts in. *)
Definition mount : State :=
  {| prompt := []; plan := VNull; isLoading := false; error := None |}.

Definition initial : System :=
  {| ui := mount; rendered := mount; inflight := [] |}.

Inductive reachable : System -> Prop :=
| reachable_initial : reachable initial
| reachable_step sys ev sys' :
    reachable sys -> step sys ev = Some sys' -> reachable sys'.

End Platform.

(** The render is up to date, and while a request is in flight the plan
    and the error are empty and that request is the only one; otherwise
    none is in flight. *)
Definition consistent (sys : System) : Prop :=
  rendered sys = ui sys /\
  if isLoading (ui sys)
  then plan (ui sys) = VNull /\ error (ui sys) = None
       /\ exists req, inflight sys = [req]
  else inflight sys = [].



(** The events of a session in which React renders again after each. *)
Definition rendering_after_each (evs : list Event) : list Event :=
  flat_map (fun ev => [ev; Render]) evs.

(** The lifecycle that the render shows: the spinner while [isLoading], the
    alert when [error] is truthy, the plan when [plan] is truthy, the
    placeholder otherwise. *)
Inductive Lifecycle := Idle | Loading | Success | Failed.

Definition lifecycle (st : State) : Lifecycle :=
  if isLoading st then Loading
  else
    match error st with
    | Some (_ :: _) => Failed
    | _ => if truthy (plan st) then Success else Idle
    end.

End Controller.

(* ================================================================= *)
(** ** A reference engine *)
(* ================================================================= *)

(** An instance of what the platform supplies, to run the controller on
    concrete responses: [String(v)], a decoder for JSON texts, and the
    wording of a [TypeError].  It stands in for an engine where a concrete
    answer is run and is no part of what is proved of the handlers, which
    holds for every [JSON_parse].  It differs from an engine in this: a
    number is kept as the decimal written, not rounded to a double; every
    text that is not JSON gets the one message of [SyntaxError] below,
    where an engine names the token and the position; the [TypeError] is
    worded after V8. *)
Module Reference.

Local Open Scope N_scope.

Fixpoint drop_zeros (ds : js_string) : js_string :=
  match ds with
  | 48 :: ds' => drop_zeros ds'
  | _ => ds
  end.

(** [Number::toString]: the digits [ds] of the number without trailing
    zeros, their count [k], and the position [n] of the decimal point. *)
Definition number_to_string (x : number) : js_string :=
  match mant x with
  | Z0 => lit "0"
  | m =>
      let all := N_digits (Z.abs_N m) in
      let ds := List.rev (drop_zeros (List.rev all)) in
      let k := Z.of_nat (List.length ds) in
      let n := (Z.of_nat (List.length all) + expo x)%Z in
      let sign := if (m <? 0)%Z then lit "-" else [] in
      sign ++
      if ((k <=? n) && (n <=? 21))%Z then
        ds ++ repeat 48 (Z.to_nat (n - k))
      else if ((0 <? n) && (n <=? 21))%Z then
        firstn (Z.to_nat n) ds ++ lit "." ++ skipn (Z.to_nat n) ds
      else if ((-6 <? n) && (n <=? 0))%Z then
        lit "0." ++ repeat 48 (Z.to_nat (- n)) ++ ds
      else
        let e := (n - 1)%Z in
        let tail := lit "e" ++ (if (e <? 0)%Z then lit "-" else lit "+")
                    ++ N_digits (Z.abs_N e) in
        match ds with
        | [d] => [d] ++ tail
        | d :: ds' => [d] ++ lit "." ++ ds' ++ tail
        | [] => []
        end
  end.

(** [String(v)] *)
Fixpoint ToString (v : value) : js_string :=
  match v with
  | VUndefined => lit "undefined"
  | VNull => lit "null"
  | VBool true => lit "true"
  | VBool false => lit "false"
  | VNum x => number_to_string x
  | VStr s => s
  | VArr elems =>
      (fix join (l : list value) : js_string :=
         let element x :=
           match x with
           | VUndefined | VNull => []
           | _ => ToString x
           end in
         match l with
         | [] => []
         | [x] => element x
         | x :: l' => element x ++ lit "," ++ join l'
         end) elems
  | VObj _ => lit "[object Object]"
  end.

(** *** Decoding a JSON text *)

Definition is_json_ws (c : code_unit) : bool :=
  (c =? 32) || (c =? 9) || (c =? 10) || (c =? 13).

Fixpoint skip_ws (s : js_string) : js_string :=
  match s with
  | c :: s' => if is_json_ws c then skip_ws s' else s
  | [] => []
  end.

Definition is_digit (c : code_unit) : bool := (48 <=? c) && (c <=? 57).

Definition hex_digit (c : code_unit) : option N :=
  if (48 <=? c) && (c <=? 57) then Some (c - 48)
  else if (65 <=? c) && (c <=? 70) then Some (c - 55)
  else if (97 <=? c) && (c <=? 102) then Some (c - 87)
  else None.

Definition hex4 (a b c d : code_unit) : option code_unit :=
  match hex_digit a, hex_digit b, hex_digit c, hex_digit d with
  | Some x, Some y, Some z, Some w => Some (((x * 16 + y) * 16 + z) * 16 + w)
  | _, _, _, _ => None
  end.

Definition escape (c : code_unit) : option code_unit :=
  if c =? 34 then Some 34            (* quote *)
  else if c =? 92 then Some 92       (* backslash *)
  else if c =? 47 then Some 47       (* slash *)
  else if c =? 98 then Some 8        (* b *)
  else if c =? 102 then Some 12      (* f *)
  else if c =? 110 then Some 10      (* n *)
  else if c =? 114 then Some 13      (* r *)
  else if c =? 116 then Some 9       (* t *)
  else None.

(** The array index that a key spells, if it spells one: the digits of a
    natural number below [2^32 - 1], with no leading zero. *)
Definition index_key (k : js_string) : option N :=
  match k with
  | [] => None
  | [48] => Some 0
  | 48 :: _ => None
  | _ =>
      if forallb is_digit k && (Nat.leb (List.length k) 10)
      then let n := fold_left (fun acc c => acc * 10 + (c - 48)) k 0 in
           if n <? 4294967295 then Some n else None
      else None
  end.

Fixpoint insert_index (n : N) (k : js_string) (x : value)
  (props : list (js_string * value)) : list (js_string * value) :=
  match props with
  | [] => [(k, x)]
  | (k', y) :: rest =>
      match index_key k' with
      | Some m =>
          if n <? m then (k, x) :: props
          else (k', y) :: insert_index n k x rest
      | None => (k, x) :: props
      end
  end.

(** Defining a property while an object is built from a text: a key that
    is there keeps its place and takes the new value; a new key that
    spells an array index goes among the index keys, in ascending order,
    before every other key; any other new key goes last. *)
Definition define (k : js_string) (x : value)
  (props : list (js_string * value)) : list (js_string * value) :=
  match lookup k props, index_key k with
  | None, Some n => insert_index n k x props
  | _, _ => set_prop k x props
  end.

Definition consed (c : code_unit) (r : option (js_string * js_string))
  : option (js_string * js_string) :=
  match r with
  | Some (s, rest) => Some (c :: s, rest)
  | None => None
  end.

(** The characters of a string after its opening quote, and what follows
    the closing quote. *)
Fixpoint string_body (s : js_string) : option (js_string * js_string) :=
  match s with
  | [] => None
  | c :: s' =>
      if c =? 34 then Some ([], s')
      else if c =? 92 then
        match s' with
        | [] => None
        | e :: s'' =>
            if e =? 117 then
              match s'' with
              | h1 :: h2 :: h3 :: h4 :: r =>
                  match hex4 h1 h2 h3 h4 with
                  | Some u => consed u (string_body r)
                  | None => None
                  end
              | _ => None
              end
            else
              match escape e with
              | Some u => consed u (string_body s'')
              | None => None
              end
        end
      else if c <? 32 then None
      else consed c (string_body s')
  end.

(** A run of digits: its value, its length, the rest. *)
Fixpoint digits (acc : Z) (len : Z) (s : js_string) : Z * Z * js_string :=
  match s with
  | c :: s' =>
      if is_digit c
      then digits (acc * 10 + Z.of_N (c - 48))%Z (len + 1)%Z s'
      else (acc, len, s)
  | [] => (acc, len, s)
  end.

(** [int frac? exp?], the sign apart *)
Definition unsigned_number (s : js_string) : option (number * js_string) :=
  match s with
  | c :: s' =>
      if is_digit c then
        let '(i, _, r1) :=
          if c =? 48 then (0%Z, 1%Z, s') else digits 0 0 s in
        let frac :=
          match r1 with
          | 46 :: r2 =>
              let '(m, len, r3) := digits i 0 r2 in
              if (len =? 0)%Z then None else Some (m, len, r3)
          | _ => Some (i, 0%Z, r1)
          end in
        match frac with
        | None => None
        | Some (m, len, r3) =>
            match r3 with
            | e :: r4 =>
                if (e =? 101) || (e =? 69) then
                  let '(neg, r5) :=
                    match r4 with
                    | 45 :: r => (true, r)
                    | 43 :: r => (false, r)
                    | _ => (false, r4)
                    end in
                  let '(x, xlen, r6) := digits 0 0 r5 in
                  if (xlen =? 0)%Z then None
                  else Some (Num m ((if neg then - x else x) - len)%Z, r6)
                else Some (Num m (- len)%Z, r3)
            | [] => Some (Num m (- len)%Z, r3)
            end
        end
      else None
  | [] => None
  end.

Definition keyword (k : string) (v : value) (s : js_string)
  : option (value * js_string) :=
  if starts_with (lit k) s
  then Some (v, skipn (List.length (lit k)) s)
  else None.

Fixpoint parse_value (fuel : nat) (s : js_string)
  : option (value * js_string) :=
  match fuel with
  | O => None
  | S fuel' =>
      match skip_ws s with
      | [] => None
      | c :: r =>
          if c =? 123 then                       (* object *)
            match skip_ws r with
            | 125 :: r' => Some (VObj [], r')
            | _ => parse_members fuel' [] r
            end
          else if c =? 91 then                   (* array *)
            match skip_ws r with
            | 93 :: r' => Some (VArr [], r')
            | _ => parse_elements fuel' [] r
            end
          else if c =? 34 then
            match string_body r with
            | Some (str, r') => Some (VStr str, r')
            | None => None
            end
          else if c =? 116 then keyword "true" (VBool true) (c :: r)
          else if c =? 102 then keyword "false" (VBool false) (c :: r)
          else if c =? 110 then keyword "null" VNull (c :: r)
          else if c =? 45 then
            match unsigned_number r with
            | Some (x, r') => Some (VNum (Num (- mant x)%Z (expo x)), r')
            | None => None
            end
          else
            match unsigned_number (c :: r) with
            | Some (x, r') => Some (VNum x, r')
            | None => None
            end
      end
  end
with parse_elements (fuel : nat) (acc : list value) (s : js_string)
  : option (value * js_string) :=
  match fuel with
  | O => None
  | S fuel' =>
      match parse_value fuel' s with
      | None => None
      | Some (v, r) =>
          match skip_ws r with
          | 44 :: r' => parse_elements fuel' (acc ++ [v]) r'
          | 93 :: r' => Some (VArr (acc ++ [v]), r')
          | _ => None
          end
      end
  end
with parse_members (fuel : nat) (acc : list (js_string * value))
  (s : js_string) : option (value * js_string) :=
  match fuel with
  | O => None
  | S fuel' =>
      match skip_ws s with
      | 34 :: r0 =>
          match string_body r0 with
          | None => None
          | Some (k, r1) =>
              match skip_ws r1 with
              | 58 :: r2 =>
                  match parse_value fuel' r2 with
                  | None => None
                  | Some (v, r3) =>
                      match skip_ws r3 with
                      | 44 :: r4 => parse_members fuel' (define k v acc) r4
                      | 125 :: r4 => Some (VObj (define k v acc), r4)
                      | _ => None
                      end
                  end
              | _ => None
              end
          end
      | _ => None
      end
  end.

Definition SyntaxError : Error :=
  {| message := lit "Unexpected token in JSON" |}.

(** [JSON.parse(text)] for a string [text] *)
Definition decode (text : js_string) : completion value :=
  match parse_value (2 * List.length text + 2) text with
  | Some (v, rest) =>
      match skip_ws rest with
      | [] => Returns v
      | _ :: _ => Throws SyntaxError
      end
  | None => Throws SyntaxError
  end.

(** [JSON.parse(v)] *)
Definition JSON_parse (v : value) : completion value := decode (ToString v).

Definition TypeError_message (v : value) (k : js_string) : js_string :=
  lit "Cannot read properties of " ++ ToString v
  ++ lit " (reading '" ++ k ++ lit "')".

End Reference.

(* ================================================================= *)
(** ** The envelope and the shape of a plan *)
(* ================================================================= *)

(** The path that leads to the text payload in the generator's envelope:
    [candidates[0].content.parts[0].text].  [at_path] follows a path with
    the reads of the language and answers [None] when a step finds nothing:
    the value read from is [null] or [undefined], or the read gives
    [undefined]. *)
Inductive Key :=
| Field (k : js_string)
| Index (i : nat).

Definition child (v : value) (k : Key) : option value :=
  if nullish v then None
  else
    match (match k with
           | Field f => get_prop v f
           | Index i => get_index v i
           end) with
    | VUndefined => None
    | x => Some x
    end.

Fixpoint at_path (path : list Key) (v : value) : option value :=
  match path with
  | [] => Some v
  | k :: path' =>
      match child v k with
      | None => None
      | Some x => at_path path' x
      end
  end.

(** The same step with optional chaining: [v?.f], [v?.[i]]. *)
Definition opt_child (v : value) (k : Key) : value :=
  match k with
  | Field f => opt_member v f
  | Index i => opt_index v i
  end.

Definition text_path : list Key :=
  [ Field (lit "candidates"); Index 0; Field (lit "content");
    Field (lit "parts"); Index 0; Field (lit "text") ].

(** The shape that the interfaces [Plan] and [Task] declare, as a test on
    values: an object with a string [title] and an array [tasks] of objects
    with a numeric [id], strings [title] and [description], a [status] that
    is ["todo"] or ["done"], and, when present, strings [file_path] and
    [code_snippet]. *)
Definition is_string (v : value) : bool :=
  match v with
  | VStr _ => true
  | _ => false
  end.

Definition is_number (v : value) : bool :=
  match v with
  | VNum _ => true
  | _ => false
  end.

Definition optional_string (v : value) : bool :=
  match v with
  | VUndefined => true
  | _ => is_string v
  end.

Definition is_task_shape (v : value) : bool :=
  match v with
  | VObj _ =>
      is_number (get_prop v (lit "id"))
      && is_string (get_prop v (lit "title"))
      && is_string (get_prop v (lit "description"))
      && (strict_eq_str (get_prop v (lit "status")) (lit "todo")
          || strict_eq_str (get_prop v (lit "status")) (lit "done"))
      && optional_string (get_prop v (lit "file_path"))
      && optional_string (get_prop v (lit "code_snippet"))
  | _ => false
  end.

Definition is_plan_shape (v : value) : bool :=
  match v with
  | VObj _ =>
      is_string (get_prop v (lit "title"))
      && match get_prop v (lit "tasks") with
         | VArr tasks => forallb is_task_shape tasks
         | _ => false
         end
  | _ => false
  end.

(* ================================================================= *)
(** ** Sample data *)
(* ================================================================= *)

Module Samples.

Import Controller.
Local Open Scope N_scope.

Definition sample_task (i : Z) (s : Status) : Task.t :=
  {| Task.id := i;
     Task.title := lit "Create form";
     Task.description := lit "...";
     Task.status := s;
     Task.file_path := None;
     Task.code_snippet := Some (lit "<form/>") |}.

Definition sample_plan : Plan.t :=
  {| Plan.title := lit "Add login";
     Plan.tasks := [sample_task 1 todo; sample_task 2 done] |}.

(** An envelope as the generator sends it, around a text payload. *)
Definition envelope_of (text : value) : value :=
  VObj [ (lit "candidates",
          VArr [ VObj [ (lit "content",
                         VObj [ (lit "parts", VArr [ VObj [ (lit "text", text) ] ]);
                                (lit "role", VStr (lit "model")) ]);
                        (lit "finishReason", VStr (lit "STOP")) ] ]) ].

Definition response_with (text : js_string) : Response :=
  {| status := 200;
     statusText := lit "OK";
     json := BodyJson (envelope_of (VStr text)) |}.

(** An envelope whose candidate was cut off before any content. *)
Definition envelope_without_content : value :=
  VObj [ (lit "candidates",
          VArr [ VObj [ (lit "finishReason", VStr (lit "SAFETY")) ] ]) ].

Definition response_without_text : Response :=
  {| status := 200;
     statusText := lit "OK";
     json := BodyJson envelope_without_content |}.

Definition response_500 : Response :=
  {| status := 500;
     statusText := lit "Internal Server Error";
     json := BodyRejected Reference.SyntaxError |}.

(** The payload of the specification's example, the same cut short by a
    trailing comma, and a JSON text that is no plan. *)
Definition login_text : js_string := quoted
  "{~title~:~Add login~,~tasks~:[{~id~:1,~title~:~Create form~,~description~:~...~,~status~:~todo~}]}".

Definition trailing_comma_text : js_string := quoted
  "{~title~:~Add login~,}".

Definition empty_object_text : js_string := lit "{}".

Definition response_null : Response :=
  {| status := 200; statusText := lit "OK"; json := BodyJson VNull |}.

(** The interface with a prompt typed in and nothing else. *)
Definition typed_in (text : js_string) : System :=
  {| ui := {| prompt := text; plan := VNull; isLoading := false; error := None |};
     rendered :=
       {| prompt := text; plan := VNull; isLoading := false; error := None |};
     inflight := [] |}.

(** Blanks only: space, tab, line feed, no-break space. *)
Definition blank_prompt : js_string := [32; 9; 10; 160].

(** The interface while the request for ["Add login"] is in flight. *)
Definition waiting : System :=
  {| ui := {| prompt := lit "Add login";
              plan := VNull;
              isLoading := true;
              error := None |};
     rendered := {| prompt := lit "Add login";
                    plan := VNull;
                    isLoading := true;
                    error := None |};
     inflight := [request (lit "Add login")] |}.

End Samples.

(* ================================================================= *)
(** ** What the components render *)
(* ================================================================= *)

Module View.

Import Controller.

(** [TaskCard], on the [task] its props type declares: the three places
    where [isDone] picks the look, the texts, the two optional parts, and
    the argument that the button's [onClick] passes to [onToggle]. *)
Record Card := mkCard {
  dimmed : bool;                   (* [opacity-50], else [opacity-100] *)
  checked : bool;                  (* [CheckCircle], else [Circle] *)
  struck : bool;                   (* [line-through], else [text-white] *)
  heading : js_string;             (* [{task.title}] *)
  text : js_string;                (* [{task.description}] *)
  file_line : option js_string;    (* [task.file_path && <p>...</p>] *)
  code_block : option js_string;   (* [task.code_snippet && <CodeBlock/>] *)
  click : Z                        (* [onToggle(task.id)] *)
}.

(** [s && ...] for an optional string: the part is there for a string
    that is not empty. *)
Definition shown (o : option js_string) : option js_string :=
  match o with
  | Some (c :: s) => Some (c :: s)
  | _ => None
  end.

Definition TaskCard (task : Task.t) : Card :=
  let isDone := match Task.status task with
                | done => true
                | todo => false
                end in
  {| dimmed := isDone;
     checked := isDone;
     struck := isDone;
     heading := Task.title task;
     text := Task.description task;
     file_line := shown (Task.file_path task);
     code_block := shown (Task.code_snippet task);
     click := Task.id task |}.

(** A card with the look of the other status and everything else as it
    is. *)
Definition relit (c : Card) : Card :=
  {| dimmed := negb (dimmed c);
     checked := negb (checked c);
     struck := negb (struck c);
     heading := heading c;
     text := text c;
     file_line := file_line c;
     code_block := code_block c;
     click := click c |}.

(** [plan.tasks.map(task => <TaskCard key={task.id} task={task} ... />)]
    on a typed plan. *)
Definition cards (p : Plan.t) : list Card :=
  List.map TaskCard (Plan.tasks p).

(** The same expression on the stored value: the [key] and the [task] of
    each element, or [None] when the expression throws. *)
Fixpoint elements (tasks : list value) : option (list (value * value)) :=
  match tasks with
  | [] => Some []
  | task :: rest =>
      match member task (lit "id") with
      | None => None
      | Some key =>
          match elements rest with
          | None => None
          | Some es => Some ((key, task) :: es)
          end
      end
  end.

Definition card_elements (plan : value) : option (list (value * value)) :=
  match get_prop plan (lit "tasks") with
  | VArr tasks => elements tasks
  | _ => None
  end.

(** What [{plan && (...)}] leaves in its place: the block with the title
    and the cards, nothing, or the text [0] that React renders for a
    number that is falsy. *)
Inductive PlanSlot :=
| NoPlan
| Zero
| PlanBlock (title : value) (cards : list (value * value)).

(** The [main] element: the alert with its message, the plan, the
    placeholder.  [None]: the render throws. *)
Record Main := mkMain {
  alert : option js_string;
  plan_slot : PlanSlot;
  placeholder : bool
}.

Definition error_truthy (st : State) : bool :=
  match error st with
  | Some (_ :: _) => true
  | _ => false
  end.

Definition main (st : State) : option Main :=
  let alert := if error_truthy st then error st else None in
  let placeholder :=
    negb (isLoading st) && negb (truthy (plan st)) && negb (error_truthy st) in
  if truthy (plan st) then
    match card_elements (plan st) with
    | None => None
    | Some cs =>
        Some {| alert := alert;
                plan_slot := PlanBlock (get_prop (plan st) (lit "title")) cs;
                placeholder := placeholder |}
    end
  else
    Some {| alert := alert;
            plan_slot := match plan st with
                         | VNum _ => Zero
                         | _ => NoPlan
                         end;
            placeholder := placeholder |}.

Definition shows_alert (m : Main) : bool :=
  match alert m with
  | Some _ => true
  | None => false
  end.

Definition shows_plan (m : Main) : bool :=
  match plan_slot m with
  | PlanBlock _ _ => true
  | _ => false
  end.

(** The form: the textarea bound to [prompt], and the submit button. *)
Record Form := mkForm {
  textarea_value : js_string;
  textarea_disabled : bool;
  button_disabled : bool;
  button_label : js_string
}.

Definition form (st : State) : Form :=
  {| textarea_value := prompt st;
     textarea_disabled := isLoading st;
     button_disabled :=
       isLoading st || negb (truthy (VStr (trim (prompt st))));
     button_label := if isLoading st
                     then lit "Generating Plan..."
                     else lit "Generate Plan" |}.

End View.

(* ================================================================= *)
(** ** [CodeBlock] and its copy button *)
(* ================================================================= *)

Module CodeBlock.

(** A [textarea] element: its identity and its [value]. *)
Record Node := mkNode {
  node_id : nat;
  node_value : js_string
}.

(** The [copied] cell of the component, the children of [document.body],
    and the callbacks that [setTimeout] holds and has not run yet. *)
Record World := mkWorld {
  copied : bool;
  body_children : list Node;
  timeouts : nat
}.

(** What [document.execCommand('copy')] does: throw, or return whether the
    command went through. *)
Inductive Exec :=
| ExecThrows (err : Error)
| ExecReturns (done : bool).

(** [document.body.removeChild(node)] for a child [node] *)
Fixpoint removeChild (id : nat) (children : list Node) : list Node :=
  match children with
  | [] => []
  | n :: rest =>
      if Nat.eqb (node_id n) id then rest else n :: removeChild id rest
  end.

(** [handleCopy]; [fresh] is the identity of the element that
    [document.createElement] returns. *)
Definition handleCopy (code : js_string) (fresh : nat) (outcome : Exec)
  (w : World) : World :=
  let textArea := {| node_id := fresh; node_value := code |} in
  let appended := body_children w ++ [textArea] in
  match outcome with
  | ExecReturns _ =>
      {| copied := true;
         body_children := removeChild fresh appended;
         timeouts := S (timeouts w) |}
  | ExecThrows _ =>
      {| copied := copied w;
         body_children := removeChild fresh appended;
         timeouts := timeouts w |}
  end.

(** One callback of [setTimeout] runs: [setCopied(false)]. *)
Definition timeout_runs (w : World) : option World :=
  match timeouts w with
  | O => None
  | S n =>
      Some {| copied := false;
              body_children := body_children w;
              timeouts := n |}
  end.

Inductive Event :=
| Click (code : js_string) (fresh : nat) (outcome : Exec)
| Timeout.

Definition step (w : World) (ev : Event) : option World :=
  match ev with
  | Click code fresh outcome => Some (handleCopy code fresh outcome w)
  | Timeout => timeout_runs w
  end.

Fixpoint run (w : World) (evs : list Event) : option World :=
  match evs with
  | [] => Some w
  | ev :: evs' =>
      match step w ev with
      | None => None
      | Some w' => run w' evs'
      end
  end.

(** The component as it mounts, in a document with the given children. *)
Definition mounted (children : list Node) : World :=
  {| copied := false; body_children := children; timeouts := 0 |}.

End CodeBlock.

Module MoreSamples.

Import Controller.
Local Open Scope N_scope.

(** Two tasks that share an id, and a third. *)
Definition repeated_plan : Plan.t :=
  {| Plan.title := lit "Add login";
     Plan.tasks := [ Samples.sample_task 1 todo;
                     Samples.sample_task 2 done;
                     Samples.sample_task 1 done ] |}.

(** A stored value whose one task has a status that is neither ["todo"]
    nor ["done"]. *)
Definition odd_status_plan : value :=
  VObj [ (lit "title", VStr (lit "Add login"));
         (lit "tasks",
          VArr [ VObj [ (lit "id", VNum (num_of_Z 1));
                        (lit "title", VStr (lit "Create form"));
                        (lit "description", VStr (lit "..."));
                        (lit "status", VStr (lit "doing")) ] ]) ].

(** The interface showing the plan of the login example. *)
Definition showing : State :=
  {| prompt := lit "Add login";
     plan := Model.plan_value Samples.sample_plan;
     isLoading := false;
     error := None |}.

(** The interface after the text [{}] was stored as the plan. *)
Definition shapeless : State :=
  {| prompt := lit "Add login";
     plan := VObj [];
     isLoading := false;
     error := None |}.

(** A document with two elements, and a snippet to copy. *)
Definition page : list CodeBlock.Node :=
  [ CodeBlock.mkNode 0 []; CodeBlock.mkNode 1 (lit "notes") ].

Definition snippet : js_string := lit "<form/>".

(** A response with a success status whose body is no JSON. *)
Definition response_undecodable : Response :=
  {| status := 200;
     statusText := lit "OK";
     json := BodyRejected {| message := [] |} |}.

End MoreSamples.

(* ================================================================= *)
(** ** Strings and numbers *)
(* ================================================================= *)

Lemma str_eqb_refl (s : js_string) : str_eqb s s = true.
Proof.
  induction s as [|c s IH]; simpl; [reflexivity|].
  now rewrite N.eqb_refl, IH.
Qed.

Lemma str_eqb_eq (s t : js_string) : str_eqb s t = true <-> s = t.
Proof.
  split; [|intros ->; apply str_eqb_refl].
  revert t; induction s as [|c s IH]; intros [|d t]; simpl; try discriminate.
  - reflexivity.
  - intros H. apply andb_true_iff in H as [Hc Hs].
    apply N.eqb_eq in Hc. apply IH in Hs. congruence.
Qed.

Lemma num_eqb_of_Z (a b : Z) :
  num_eqb (num_of_Z a) (num_of_Z b) = (a =? b)%Z.
Proof.
  unfold num_eqb, num_of_Z; simpl.
  now rewrite !Z.mul_1_r.
Qed.

Lemma trimStart_blank (s : js_string) :
  forallb is_whitespace s = true -> trimStart s = [].
Proof.
  induction s as [|c s IH]; simpl; [reflexivity|].
  intros H. apply andb_true_iff in H as [Hc Hs].
  rewrite Hc. now apply IH.
Qed.

Lemma trim_blank (s : js_string) :
  forallb is_whitespace s = true -> trim s = [].
Proof.
  intros H. unfold trim. now rewrite (trimStart_blank s H).
Qed.

Lemma starts_with_app (t s : js_string) : starts_with t (t ++ s) = true.
Proof.
  induction t as [|c t IH]; simpl; [reflexivity|].
  now rewrite N.eqb_refl, IH.
Qed.

Lemma includes_prefix (s t : js_string) :
  starts_with t s = true -> includes s t = true.
Proof. intros H. destruct s; simpl; now rewrite H. Qed.

Lemma includes_app (a t b : js_string) : includes (a ++ t ++ b) t = true.
Proof.
  induction a as [|c a IH]; simpl.
  - apply includes_prefix, starts_with_app.
  - rewrite IH. apply orb_true_r.
Qed.

(* ================================================================= *)
(** ** The toggle on typed plans *)
(* ================================================================= *)

Section Toggle.

Import Model.
Local Open Scope Z_scope.

Variable taskId : Z.

Local Abbreviation flip :=
  (fun task : Task.t => if Task.id task =? taskId then toggled task else task).

Lemma toggled_involutive (task : Task.t) : toggled (toggled task) = task.
Proof. destruct task as [i t d [|] f c]; reflexivity. Qed.

Lemma toggle_absent (l : list Task.t) :
  ~ In taskId (List.map Task.id l) -> List.map flip l = l.
Proof.
  induction l as [|task l IH]; simpl; [reflexivity|].
  intros H.
  destruct (Z.eqb_spec (Task.id task) taskId) as [E|E].
  - exfalso. apply H. now left.
  - f_equal. apply IH. intros Hin. apply H. now right.
Qed.

Lemma toggle_present (l : list Task.t) :
  NoDup (List.map Task.id l) ->
  In taskId (List.map Task.id l) ->
  exists before task after,
    l = before ++ task :: after /\
    Task.id task = taskId /\
    List.map flip l = before ++ toggled task :: after.
Proof.
  induction l as [|task l IH]; simpl; [intros _ []|].
  intros Hnd Hin. inversion Hnd as [|x xs Hnotin Hnd']; subst.
  destruct (Z.eqb_spec (Task.id task) taskId) as [E|E].
  - exists [], task, l. repeat split; [assumption|].
    simpl. f_equal. apply toggle_absent. now rewrite <- E.
  - destruct Hin as [Hin|Hin]; [contradiction|].
    destruct (IH Hnd' Hin) as (before & t & after & Hl & Hid & Hmap).
    exists (task :: before), t, after. repeat split.
    + simpl. now f_equal.
    + assumption.
    + simpl. now f_equal.
Qed.

Lemma toggle_twice (l : list Task.t) : List.map flip (List.map flip l) = l.
Proof.
  induction l as [|task l IH]; simpl; [reflexivity|].
  f_equal; [|exact IH].
  destruct (Z.eqb_spec (Task.id task) taskId) as [E|E].
  - change (Task.id (toggled task)) with (Task.id task).
    rewrite (proj2 (Z.eqb_eq _ _) E). apply toggled_involutive.
  - now rewrite (proj2 (Z.eqb_neq _ _) E).
Qed.

End Toggle.

(* ================================================================= *)
(** ** The typed toggle is what the engine runs *)
(* ================================================================= *)

Section Simulation.

Import Model.

Lemma toggle_task_value (taskId : Z) (task : Task.t) :
  Controller.toggle_task (num_of_Z taskId) (task_value task)
  = Some (task_value
            (if (Task.id task =? taskId)%Z then toggled task else task)).
Proof.
  unfold Controller.toggle_task, task_value. cbn [member nullish get_prop].
  change (lookup (lit "id") _) with (Some (VNum (num_of_Z (Task.id task)))).
  cbn [strict_eq_num]. rewrite num_eqb_of_Z.
  destruct (Task.id task =? taskId)%Z; [|reflexivity].
  destruct task as [i t d [|] f c]; reflexivity.
Qed.

Lemma map_toggle_task_value (taskId : Z) (l : list Task.t) :
  map_throwing (Controller.toggle_task (num_of_Z taskId))
               (List.map task_value l)
  = Some (List.map task_value
            (List.map (fun task =>
                         if (Task.id task =? taskId)%Z
                         then toggled task else task) l)).
Proof.
  induction l as [|task l IH]; [reflexivity|].
  cbn [List.map map_throwing].
  now rewrite toggle_task_value, IH.
Qed.

(** On the object of a typed plan, the updater that the engine runs returns
    the object of the plan that [toggleTask] computes. *)
Lemma toggle_updater_plan_value (taskId : Z) (p : Plan.t) :
  Controller.toggle_updater (num_of_Z taskId) (plan_value p)
  = Some (plan_value (toggleTask p taskId)).
Proof.
  unfold Controller.toggle_updater, plan_value.
  cbn [truthy negb].
  change (get_prop _ (lit "tasks"))
    with (VArr (List.map task_value (Plan.tasks p))).
  cbn [array_map]. rewrite map_toggle_task_value.
  reflexivity.
Qed.

(** The object of a typed plan has the shape the interfaces declare. *)
Lemma task_value_shape (task : Task.t) : is_task_shape (task_value task) = true.
Proof. destruct task as [i t d [|] [f|] [c|]]; reflexivity. Qed.

Lemma plan_value_shape (p : Plan.t) : is_plan_shape (plan_value p) = true.
Proof.
  unfold is_plan_shape, plan_value.
  change (get_prop _ (lit "title")) with (VStr (Plan.title p)).
  change (get_prop _ (lit "tasks"))
    with (VArr (List.map task_value (Plan.tasks p))).
  cbn [is_string andb]. rewrite forallb_forall.
  intros v Hv. apply in_map_iff in Hv as (task & <- & _).
  apply task_value_shape.
Qed.

End Simulation.

(* ================================================================= *)
(** ** Properties of the toggle *)
(* ================================================================= *)

Section ToggleProperties.

Import Model.

(** C1.  In a plan whose task ids are pairwise distinct, toggling an id
    that occurs in it returns the plan with the same title and the same
    tasks in the same order, except that the one task with that id has its
    status flipped between [todo] and [done]; the other five fields of that
    task are the ones it had.  The updater that the engine runs on the
    stored object computes the object of that plan. *)
Theorem toggleTask_flips_one_status (P : Plan.t) (i : Z) :
  NoDup (List.map Task.id (Plan.tasks P)) ->
  In i (List.map Task.id (Plan.tasks P)) ->
  exists before task after,
    Plan.tasks P = before ++ task :: after /\
    Task.id task = i /\
    toggleTask P i =
      {| Plan.title := Plan.title P;
         Plan.tasks :=
           before ++
           {| Task.id := Task.id task;
              Task.title := Task.title task;
              Task.description := Task.description task;
              Task.status := match Task.status task with
                             | todo => done
                             | done => todo
                             end;
              Task.file_path := Task.file_path task;
              Task.code_snippet := Task.code_snippet task |} :: after |} /\
    Controller.toggle_updater (num_of_Z i) (plan_value P)
    = Some (plan_value (toggleTask P i)).
Proof.
  intros Hnd Hin.
  destruct (toggle_present i (Plan.tasks P) Hnd Hin)
    as (before & task & after & Hl & Hid & Hmap).
  exists before, task, after. repeat split; try assumption.
  - unfold toggleTask. now rewrite Hmap.
  - apply toggle_updater_plan_value.
Qed.

(** C2.  Toggling an id that no task of the plan has returns the plan
    itself: same title, same tasks, same order, every field equal; and the
    engine returns the object it was given. *)
Theorem toggleTask_absent_id (P : Plan.t) (i : Z) :
  ~ In i (List.map Task.id (Plan.tasks P)) ->
  toggleTask P i = P /\
  Controller.toggle_updater (num_of_Z i) (plan_value P) = Some (plan_value P).
Proof.
  intros Hnot.
  assert (E : toggleTask P i = P).
  { unfold toggleTask. rewrite (toggle_absent i (Plan.tasks P) Hnot).
    now destruct P. }
  split; [exact E|].
  now rewrite toggle_updater_plan_value, E.
Qed.

(** C3.  Toggling the same id twice returns the plan one started from,
    whatever the plan and the id; so do two runs of the engine's updater on
    the object of a plan. *)
Theorem toggleTask_involutive (P : Plan.t) (i : Z) :
  toggleTask (toggleTask P i) i = P /\
  exists v,
    Controller.toggle_updater (num_of_Z i) (plan_value P) = Some v /\
    Controller.toggle_updater (num_of_Z i) v = Some (plan_value P).
Proof.
  assert (E : toggleTask (toggleTask P i) i = P).
  { unfold toggleTask; simpl. rewrite toggle_twice. now destruct P. }
  split; [exact E|].
  exists (plan_value (toggleTask P i)). split.
  - apply toggle_updater_plan_value.
  - now rewrite toggle_updater_plan_value, E.
Qed.

End ToggleProperties.

Import Samples.

Lemma toggleTask_flips_one_status_witness :
  NoDup (List.map Task.id (Plan.tasks sample_plan)) /\
  In 2%Z (List.map Task.id (Plan.tasks sample_plan)) /\
  exists before task after,
    Plan.tasks sample_plan = before ++ task :: after /\
    Task.id task = 2%Z /\
    Model.toggleTask sample_plan 2 =
      {| Plan.title := Plan.title sample_plan;
         Plan.tasks :=
           before ++
           {| Task.id := Task.id task;
              Task.title := Task.title task;
              Task.description := Task.description task;
              Task.status := match Task.status task with
                             | todo => done
                             | done => todo
                             end;
              Task.file_path := Task.file_path task;
              Task.code_snippet := Task.code_snippet task |} :: after |} /\
    Controller.toggle_updater (num_of_Z 2) (Model.plan_value sample_plan)
    = Some (Model.plan_value (Model.toggleTask sample_plan 2)).
Proof.
  assert (Hnd : NoDup (List.map Task.id (Plan.tasks sample_plan))).
  { simpl. repeat constructor; simpl; intuition discriminate. }
  assert (Hin : In 2%Z (List.map Task.id (Plan.tasks sample_plan))).
  { simpl. auto. }
  split; [exact Hnd|]. split; [exact Hin|].
  exact (toggleTask_flips_one_status sample_plan 2 Hnd Hin).
Defined.

Lemma toggleTask_absent_id_witness :
  ~ In 7%Z (List.map Task.id (Plan.tasks sample_plan)) /\
  Model.toggleTask sample_plan 7 = sample_plan /\
  Controller.toggle_updater (num_of_Z 7) (Model.plan_value sample_plan)
  = Some (Model.plan_value sample_plan).
Proof.
  assert (Hnot : ~ In 7%Z (List.map Task.id (Plan.tasks sample_plan))).
  { simpl. intuition discriminate. }
  split; [exact Hnot|].
  exact (toggleTask_absent_id sample_plan 7 Hnot).
Defined.

(* ================================================================= *)
(** ** Paths and optional chains *)
(* ================================================================= *)

Lemma child_opt_child (v : value) (k : Key) :
  child v k = match opt_child v k with
              | VUndefined => None
              | x => Some x
              end.
Proof.
  unfold child, opt_child, opt_member, opt_index.
  destruct k; destruct (nullish v); reflexivity.
Qed.

Lemma opt_child_undefined (path : list Key) :
  fold_left opt_child path VUndefined = VUndefined.
Proof.
  induction path as [|k path IH]; [reflexivity|].
  simpl. now destruct k.
Qed.

(** Following a path step by step finds what the optional chain along it
    evaluates to, and finds nothing when the chain gives [undefined]. *)
Lemma at_path_chain (k : Key) (path : list Key) (v : value) :
  at_path (k :: path) v
  = match fold_left opt_child (k :: path) v with
    | VUndefined => None
    | x => Some x
    end.
Proof.
  revert k v. induction path as [|k' path IH]; intros k v.
  - simpl. rewrite child_opt_child. now destruct (opt_child v k).
  - change (at_path (k :: k' :: path) v)
      with (match child v k with
            | None => None
            | Some x => at_path (k' :: path) x
            end).
    change (fold_left opt_child (k :: k' :: path) v)
      with (fold_left opt_child (k' :: path) (opt_child v k)).
    rewrite child_opt_child.
    destruct (opt_child v k) eqn:E; try apply IH.
    now rewrite opt_child_undefined.
Qed.

(* ================================================================= *)
(** ** Properties of the controller *)
(* ================================================================= *)

Import Controller.

Section ControllerProperties.

Variable JSON_parse : value -> completion value.
Variable TypeError_message : value -> js_string -> js_string.

Local Abbreviation step := (Controller.step JSON_parse TypeError_message).
Local Abbreviation run := (Controller.run JSON_parse TypeError_message).
Local Abbreviation settle := (Controller.settle JSON_parse TypeError_message).
Local Abbreviation try_block :=
  (Controller.try_block JSON_parse TypeError_message).
Local Abbreviation read_response :=
  (Controller.read_response JSON_parse TypeError_message).
Local Abbreviation reachable :=
  (Controller.reachable JSON_parse TypeError_message).


Lemma handleSubmit_blank (st : State) :
  forallb is_whitespace (prompt st) = true -> handleSubmit st = Ignored.
Proof.
  intros H. unfold handleSubmit. now rewrite (trim_blank _ H).
Qed.

Lemma handleSubmit_loading (st : State) :
  isLoading st = true -> handleSubmit st = Ignored.
Proof.
  intros H. unfold handleSubmit. rewrite H. now rewrite orb_true_r.
Qed.

Lemma handleSubmit_dispatched (st st' : State) (req : Request) :
  handleSubmit st = Dispatched st' req ->
  isLoading st = false /\ trim (prompt st) <> [] /\
  st' = {| prompt := prompt st; plan := VNull; isLoading := true;
           error := None |} /\
  req = request (prompt st).
Proof.
  unfold handleSubmit.
  destruct (trim (prompt st)) eqn:Et; simpl; [discriminate|].
  destruct (isLoading st); [discriminate|].
  intros H; inversion H; subst. repeat split; discriminate.
Qed.

Lemma handleToggleTask_empty (taskId : number) (st : State) :
  plan st = VNull -> handleToggleTask taskId st = Some st.
Proof.
  intros H. unfold handleToggleTask. rewrite H. simpl.
  destruct st as [p pl l e]; simpl in *. now subst.
Qed.

Lemma without_only (A : Type) (x : A) : without 0 [x] = [].
Proof. reflexivity. Qed.

(** An event and the render after it keep [consistent]. *)
Lemma step_render_consistent (sys sys1 : System) (ev : Event) :
  consistent sys -> step sys ev = Some sys1 ->
  exists sys2, step sys1 Render = Some sys2 /\ consistent sys2.
Proof.
  unfold consistent. intros [Hr Hc] Hs.
  eexists. split; [reflexivity|]. cbn [ui rendered inflight].
  split; [reflexivity|].
  destruct ev as [text| |taskId|n outcome|]; simpl in Hs.
  - inversion Hs; subst; simpl. exact Hc.
  - rewrite Hr in Hs.
    destruct (handleSubmit (ui sys)) as [|st' req] eqn:Eh.
    + inversion Hs; subst. exact Hc.
    + apply handleSubmit_dispatched in Eh as (Hl & _ & -> & ->).
      inversion Hs; subst; simpl. rewrite Hl in Hc. rewrite Hc.
      repeat split. now eexists.
  - destruct (isLoading (ui sys)) eqn:El.
    + destruct Hc as (Hp & He & Hq).
      rewrite (handleToggleTask_empty taskId (ui sys) Hp) in Hs.
      inversion Hs; subst; simpl. rewrite El. auto.
    + unfold handleToggleTask in Hs.
      destruct (toggle_updater taskId (plan (ui sys))); [|discriminate].
      inversion Hs; subst; simpl. now rewrite El.
  - destruct (nth_error (inflight sys) n) as [req|] eqn:En; [|discriminate].
    inversion Hs; subst; simpl.
    destruct (isLoading (ui sys)).
    + destruct Hc as (_ & _ & r & Hq). rewrite Hq in *.
      destruct n as [|[|n]]; try discriminate.
      unfold Controller.settle.
      now destruct (Controller.try_block _ _ outcome).
    + rewrite Hc in En. destruct n; discriminate.
  - inversion Hs; subst; simpl. exact Hc.
Qed.

Lemma rendering_after_each_consistent (evs : list Event)
  (sys sys' : System) :
  consistent sys ->
  run sys (rendering_after_each evs) = Some sys' ->
  consistent sys'.
Proof.
  revert sys. induction evs as [|ev evs IH]; intros sys Hc Hr.
  - inversion Hr; subst. exact Hc.
  - cbn [rendering_after_each flat_map app Controller.run] in Hr.
    destruct (Controller.step _ _ sys ev) as [sys1|] eqn:E1; [|discriminate].
    destruct (step_render_consistent ev Hc E1) as (sys2 & E2 & Hc2).
    change (Controller.step JSON_parse TypeError_message sys1 Render)
      with (Some {| ui := ui sys1; rendered := ui sys1;
                    inflight := inflight sys1 |}) in *.
    inversion E2; subst. exact (IH _ Hc2 Hr).
Qed.

(** When React renders again after each event, the guard holds the line:
    at most one request is in flight, one exactly while [isLoading] is
    set, and a submit while it is set does nothing. *)
Lemma one_request_when_rendering_after_each (evs : list Event)
  (sys : System) :
  run initial (rendering_after_each evs) = Some sys ->
  (List.length (inflight sys) <= 1)%nat /\
  (inflight sys <> [] <-> isLoading (ui sys) = true) /\
  (isLoading (ui sys) = true -> step sys Submit = Some sys).
Proof.
  intros Hr.
  assert (Hc : consistent sys).
  { apply (rendering_after_each_consistent evs (sys := initial));
      [now split|exact Hr]. }
  destruct Hc as [Hrd Hc].
  destruct (isLoading (ui sys)) eqn:El.
  - destruct Hc as (_ & _ & req & Hreq).
    split; [rewrite Hreq; simpl; lia|].
    split; [split; [reflexivity|rewrite Hreq; discriminate]|].
    intros _. simpl. rewrite Hrd.
    now rewrite (handleSubmit_loading (ui sys) El).
  - split; [rewrite Hc; simpl; lia|].
    split; [split; [intros H; now contradiction H|discriminate]|].
    discriminate.
Qed.

(** C4.  With a prompt that is empty or holds nothing but white space, a
    submit does nothing: [handleSubmit] returns before it sets a state cell
    or builds a request, so the system after the event is the system before
    it, with the same loading flag, plan and error, nothing added to the
    requests in flight.  The prompt is the one the handler reads, that of
    its render. *)
Theorem submit_blank_prompt_ignored (sys : System) :
  forallb is_whitespace (prompt (rendered sys)) = true ->
  handleSubmit (rendered sys) = Ignored /\ step sys Submit = Some sys.
Proof.
  intros H. pose proof (handleSubmit_blank (rendered sys) H) as E.
  split; [exact E|]. simpl. now rewrite E.
Qed.

(** A submit from a render that accepts it, and the same again before
    React renders: both send the request. *)
Lemma submit_twice_before_render (sys : System) (st' : State)
  (req : Request) :
  handleSubmit (rendered sys) = Dispatched st' req ->
  exists sys1 sys2,
    step sys Submit = Some sys1 /\
    isLoading (ui sys1) = true /\
    inflight sys1 = inflight sys ++ [req] /\
    step sys1 Submit = Some sys2 /\
    inflight sys2 = inflight sys ++ [req; req].
Proof.
  intros H. pose proof (handleSubmit_dispatched _ H) as (_ & _ & -> & _).
  do 2 eexists. cbn [Controller.step]. rewrite H.
  split; [reflexivity|]. cbn [ui rendered inflight isLoading].
  split; [reflexivity|]. split; [reflexivity|].
  rewrite H. split; [reflexivity|]. cbn [inflight].
  now rewrite <- app_assoc.
Qed.

(** C5.  The guard of [handleSubmit] reads the [isLoading] of its render.
    From the mount, with a prompt typed and rendered, two submits that
    come before React renders again both pass the guard: the second finds
    the loading flag set in the cells and a request in flight, and sends
    the request once more, so two requests are in flight. *)
Theorem second_submit_before_render_is_sent :
  exists sys1 sys2,
    run initial [Edit (lit "Add login"); Render; Submit] = Some sys1 /\
    isLoading (ui sys1) = true /\
    inflight sys1 = [request (lit "Add login")] /\
    step sys1 Submit = Some sys2 /\
    sys2 <> sys1 /\
    inflight sys2 = [request (lit "Add login"); request (lit "Add login")] /\
    List.length (inflight sys2) = 2%nat.
Proof.
  do 2 eexists.
  split; [reflexivity|]. split; [reflexivity|]. split; [reflexivity|].
  split; [reflexivity|]. split; [|split; reflexivity].
  intros H. apply (f_equal (fun s => List.length (inflight s))) in H.
  discriminate H.
Qed.

(** C10.  With no plan stored, a toggle of any task id leaves everything as
    it is: the updater returns [null] for [null] and throws nothing, and
    the system after the event is the system before it.  Under the
    declared type [Plan | null] the updater likewise maps the empty cell to
    the empty cell. *)
Theorem toggle_without_plan (taskId : number) (sys : System) :
  plan (ui sys) = VNull ->
  toggle_updater taskId (plan (ui sys)) = Some VNull /\
  step sys (Toggle taskId) = Some sys /\
  forall i : Z, Model.toggle_updater i None = None.
Proof.
  intros H. split; [|split].
  - now rewrite H.
  - simpl. rewrite (handleToggleTask_empty taskId (ui sys) H).
    now destruct sys.
  - reflexivity.
Qed.

(** *** The answer to a request *)

(** The guard [candidate && candidate.content?.parts?.[0]?.text] looks at
    the end of the optional chain from the candidate. *)
Lemma candidate_guard (candidate : value) :
  let chain :=
    fold_left opt_child
      [Field (lit "content"); Field (lit "parts"); Index 0; Field (lit "text")]
      candidate in
  truthy candidate && truthy (candidate_text candidate) = truthy chain /\
  (truthy chain = true -> candidate_text candidate = chain).
Proof.
  unfold candidate_text.
  destruct candidate as [| |[|]|n|[|c s]|l|props]; simpl.
  all: try (split; [reflexivity|discriminate]).
  - rewrite andb_false_r. split; [reflexivity|discriminate].
  - split; reflexivity.
Qed.

(** What the [try] block does with a body that is an envelope. *)
Lemma read_response_envelope (response : Response) (result : value) :
  ok response = true ->
  json response = BodyJson result ->
  nullish result = false ->
  read_response response
  = let text := fold_left opt_child text_path result in
    if truthy text then JSON_parse text
    else Throws {| message :=
                     lit "Invalid response structure from AI model." |}.
Proof.
  intros Hok Hjson Hn. unfold Controller.read_response.
  rewrite Hok, Hjson. cbn [negb]. unfold member. rewrite Hn.
  set (candidate := opt_index (get_prop result (lit "candidates")) 0).
  destruct (candidate_guard candidate) as [Hg Ht].
  assert (Hc : fold_left opt_child text_path result
               = fold_left opt_child
                   [Field (lit "content"); Field (lit "parts"); Index 0;
                    Field (lit "text")] candidate).
  { unfold text_path, candidate. cbn [fold_left opt_child].
    unfold opt_member at 4. now rewrite Hn. }
  cbv zeta. rewrite Hc, Hg.
  destruct (truthy (fold_left opt_child _ candidate)) eqn:E; [|reflexivity].
  now rewrite (Ht eq_refl).
Qed.

Lemma step_settle (sys : System) (n : nat) (req : Request)
  (outcome : FetchOutcome) :
  nth_error (inflight sys) n = Some req ->
  step sys (Settle n outcome)
  = Some {| ui := settle outcome (ui sys);
            rendered := rendered sys;
            inflight := without n (inflight sys) |}.
Proof. intros H. simpl. now rewrite H. Qed.

(** When the [try] block throws, [catch] stores the message of the
    exception, or the fallback for an empty one, and [finally] clears the
    loading flag; the plan cell is not written. *)
Lemma settle_throws (outcome : FetchOutcome) (err : Error) (st : State) :
  try_block outcome = Throws err ->
  settle outcome st
  = {| prompt := prompt st;
       plan := plan st;
       isLoading := false;
       error := Some (or_else (message err) fallback) |}.
Proof. intros H. unfold Controller.settle. now rewrite H. Qed.

Lemma settle_returns (outcome : FetchOutcome) (v : value) (st : State) :
  try_block outcome = Returns v ->
  settle outcome st
  = {| prompt := prompt st;
       plan := v;
       isLoading := false;
       error := error st |}.
Proof. intros H. unfold Controller.settle. now rewrite H. Qed.

Lemma failed_after_throw (outcome : FetchOutcome) (err : Error) (st : State) :
  try_block outcome = Throws err -> lifecycle (settle outcome st) = Failed.
Proof.
  intros H. rewrite (settle_throws outcome st H). unfold lifecycle; simpl.
  destruct (message err); reflexivity.
Qed.

(** C7.  A response whose status is outside 200..299 takes the interface
    to the error state with the message ["API error: "], the status code
    in decimal, a space, the reason phrase; the plan cell is left as it
    was.  The message includes the code and the phrase, and for status 500
    it includes ["500"]. *)
Theorem transport_failure_reported (sys : System) (n : nat)
  (req : Request) (response : Response) :
  nth_error (inflight sys) n = Some req ->
  ok response = false ->
  exists final msg,
    step sys (Settle n (FetchResolved response)) = Some final /\
    lifecycle (ui final) = Failed /\
    error (ui final) = Some msg /\
    plan (ui final) = plan (ui sys) /\
    msg = lit "API error: " ++ N_digits (status response)
          ++ lit " " ++ statusText response /\
    includes msg (N_digits (status response)) = true /\
    includes msg (statusText response) = true /\
    (status response = 500%N -> includes msg (lit "500") = true).
Proof.
  intros Hin Hok.
  set (msg := lit "API error: " ++ N_digits (status response)
              ++ lit " " ++ statusText response).
  assert (Ht : try_block (FetchResolved response)
               = Throws {| message := msg |}).
  { simpl. unfold Controller.read_response. now rewrite Hok. }
  exists {| ui := settle (FetchResolved response) (ui sys);
            rendered := rendered sys;
            inflight := without n (inflight sys) |}.
  exists msg. split; [exact (step_settle sys n _ Hin)|].
  cbn [ui]. split; [exact (failed_after_throw _ _ Ht)|].
  rewrite (settle_throws _ _ Ht). cbn [error plan message].
  repeat split.
  - apply includes_app.
  - replace msg
      with ((lit "API error: " ++ N_digits (status response) ++ lit " ")
            ++ statusText response ++ []).
    + apply includes_app.
    + unfold msg. now rewrite app_nil_r, <- !app_assoc.
  - intros H500. unfold msg. rewrite H500. apply includes_app.
Qed.

(** C8, as the code has it.  A response with a success status whose body
    decoded to something other than [null], and from which the text
    payload is missing (there is no [candidates], or no first candidate, or
    it has no [content], or that has no [parts], or no first part, or that
    has no [text]), takes the interface to the error state with the
    message ["Invalid response structure from AI model."]. *)
Theorem missing_text_reported (sys : System) (n : nat)
  (req : Request) (response : Response) (result : value) :
  nth_error (inflight sys) n = Some req ->
  ok response = true ->
  json response = BodyJson result ->
  nullish result = false ->
  at_path text_path result = None ->
  exists final,
    step sys (Settle n (FetchResolved response)) = Some final /\
    lifecycle (ui final) = Failed /\
    error (ui final)
    = Some (lit "Invalid response structure from AI model.") /\
    plan (ui final) = plan (ui sys).
Proof.
  intros Hin Hok Hjson Hn Hpath.
  assert (Ht : try_block (FetchResolved response)
               = Throws {| message :=
                             lit "Invalid response structure from AI model." |}).
  { simpl. rewrite (read_response_envelope _ Hok Hjson Hn). cbv zeta.
    unfold text_path in *. rewrite at_path_chain in Hpath.
    destruct (fold_left opt_child _ result); try discriminate.
    reflexivity. }
  exists {| ui := settle (FetchResolved response) (ui sys);
            rendered := rendered sys;
            inflight := without n (inflight sys) |}.
  split; [exact (step_settle sys n _ Hin)|].
  cbn [ui]. split; [exact (failed_after_throw _ _ Ht)|].
  rewrite (settle_throws _ _ Ht). split; reflexivity.
Qed.

(** A text that is there and falsy (the empty string, [null], [false],
    zero) is reported in the same words. *)
Lemma falsy_text_reported (sys : System) (n : nat)
  (req : Request) (response : Response) (result text : value) :
  nth_error (inflight sys) n = Some req ->
  ok response = true ->
  json response = BodyJson result ->
  at_path text_path result = Some text ->
  truthy text = false ->
  step sys (Settle n (FetchResolved response))
  = Some {| ui := {| prompt := prompt (ui sys);
                     plan := plan (ui sys);
                     isLoading := false;
                     error :=
                       Some (lit "Invalid response structure from AI model.") |};
            rendered := rendered sys;
            inflight := without n (inflight sys) |}.
Proof.
  intros Hin Hok Hjson Hpath Hfalsy.
  assert (Hn : nullish result = false).
  { destruct result; try reflexivity; discriminate. }
  rewrite (step_settle sys n _ Hin).
  rewrite (@settle_throws _ {| message :=
             lit "Invalid response structure from AI model." |}); [reflexivity|].
  simpl. rewrite (read_response_envelope _ Hok Hjson Hn). cbv zeta.
  unfold text_path in *. rewrite at_path_chain in Hpath.
  destruct (fold_left opt_child _ result); try discriminate;
    inversion Hpath; subst; now rewrite Hfalsy.
Qed.

(** C9, as the code has it.  With a text payload in the envelope that is
    not the empty string: when [JSON.parse] throws, the interface reaches
    the error state with the message of that exception (the fallback if it
    is empty) and the plan cell as it was; when [JSON.parse] returns, what
    it returned is stored as the plan, whatever its shape, and the error
    cell is not written.  An empty text payload is not handed to
    [JSON.parse]: it is reported as an invalid response structure.
    Whatever way a request settles, [handleSubmit] completes and clears
    the loading flag: no exception leaves it. *)
Theorem text_payload_decoded (sys : System) (n : nat)
  (req : Request) (response : Response) (result : value)
  (text : js_string) :
  nth_error (inflight sys) n = Some req ->
  ok response = true ->
  json response = BodyJson result ->
  at_path text_path result = Some (VStr text) ->
  (text <> [] ->
   forall err, JSON_parse (VStr text) = Throws err ->
     step sys (Settle n (FetchResolved response))
     = Some {| ui := {| prompt := prompt (ui sys);
                        plan := plan (ui sys);
                        isLoading := false;
                        error := Some (or_else (message err) fallback) |};
               rendered := rendered sys;
               inflight := without n (inflight sys) |} /\
     lifecycle {| prompt := prompt (ui sys);
                  plan := plan (ui sys);
                  isLoading := false;
                  error := Some (or_else (message err) fallback) |}
     = Failed) /\
  (text <> [] ->
   forall v, JSON_parse (VStr text) = Returns v ->
     step sys (Settle n (FetchResolved response))
     = Some {| ui := {| prompt := prompt (ui sys);
                        plan := v;
                        isLoading := false;
                        error := error (ui sys) |};
               rendered := rendered sys;
               inflight := without n (inflight sys) |}) /\
  (text = [] ->
   step sys (Settle n (FetchResolved response))
   = Some {| ui := {| prompt := prompt (ui sys);
                      plan := plan (ui sys);
                      isLoading := false;
                      error :=
                        Some (lit "Invalid response structure from AI model.") |};
             rendered := rendered sys;
             inflight := without n (inflight sys) |}) /\
  (forall outcome, exists final,
     step sys (Settle n outcome) = Some final /\
     isLoading (ui final) = false /\
     inflight final = without n (inflight sys)).
Proof.
  intros Hin Hok Hjson Hpath.
  assert (Hn : nullish result = false).
  { destruct result; try reflexivity; discriminate. }
  assert (Ht : try_block (FetchResolved response)
               = match text with
                 | [] => Throws {| message :=
                           lit "Invalid response structure from AI model." |}
                 | _ :: _ => JSON_parse (VStr text)
                 end).
  { simpl. rewrite (read_response_envelope _ Hok Hjson Hn). cbv zeta.
    unfold text_path in *. rewrite at_path_chain in Hpath.
    destruct (fold_left opt_child _ result); try discriminate;
      inversion Hpath; subst.
    now destruct text. }
  split; [|split; [|split]].
  - intros Hne err Herr. rewrite (step_settle sys n _ Hin).
    destruct text; [contradiction|]. rewrite <- Ht in Herr.
    rewrite (settle_throws _ _ Herr). split; [reflexivity|].
    unfold lifecycle; simpl. now destruct (message err).
  - intros Hne v Hv. rewrite (step_settle sys n _ Hin).
    destruct text; [contradiction|]. rewrite <- Ht in Hv.
    now rewrite (settle_returns _ _ Hv).
  - intros ->. rewrite (step_settle sys n _ Hin).
    now rewrite (settle_throws _ _ Ht).
  - intros outcome. eexists. split; [exact (step_settle sys n _ Hin)|].
    split; [|reflexivity]. unfold Controller.settle; cbn [ui].
    now destruct (Controller.try_block _ _ outcome).
Qed.

(** *** From the submit to the answer *)





End ControllerProperties.

(* ================================================================= *)
(** ** The properties at concrete states and answers *)
(* ================================================================= *)

Section Concrete.

Local Abbreviation step :=
  (Controller.step Reference.JSON_parse Reference.TypeError_message).
Local Abbreviation run :=
  (Controller.run Reference.JSON_parse Reference.TypeError_message).
Local Abbreviation reachable :=
  (Controller.reachable Reference.JSON_parse Reference.TypeError_message).

Lemma typed_in_reachable (text : js_string) : reachable (typed_in text).
Proof.
  apply reachable_step
    with (sys := {| ui := ui (typed_in text); rendered := mount;
                    inflight := [] |}) (ev := Render); [|reflexivity].
  apply reachable_step with (sys := initial) (ev := Edit text).
  - apply reachable_initial.
  - reflexivity.
Qed.

Lemma waiting_reachable : reachable waiting.
Proof.
  apply reachable_step
    with (sys := {| ui := ui waiting;
                    rendered := ui (typed_in (lit "Add login"));
                    inflight := inflight waiting |}) (ev := Render);
    [|reflexivity].
  apply reachable_step
    with (sys := typed_in (lit "Add login")) (ev := Submit).
  - apply typed_in_reachable.
  - reflexivity.
Qed.

Lemma submit_blank_prompt_ignored_witness :
  forallb is_whitespace (prompt (rendered (typed_in blank_prompt))) = true /\
  handleSubmit (rendered (typed_in blank_prompt)) = Ignored /\
  step (typed_in blank_prompt) Submit = Some (typed_in blank_prompt).
Proof.
  split; [reflexivity|].
  apply (submit_blank_prompt_ignored Reference.JSON_parse
           Reference.TypeError_message (typed_in blank_prompt)).
  reflexivity.
Defined.

Lemma toggle_without_plan_witness :
  plan (ui waiting) = VNull /\
  toggle_updater (num_of_Z 1) (plan (ui waiting)) = Some VNull /\
  step waiting (Toggle (num_of_Z 1)) = Some waiting /\
  forall i : Z, Model.toggle_updater i None = None.
Proof.
  split; [reflexivity|].
  apply (toggle_without_plan Reference.JSON_parse Reference.TypeError_message
           (num_of_Z 1) waiting).
  reflexivity.
Defined.


Lemma transport_failure_reported_witness :
  nth_error (inflight waiting) 0 = Some (request (lit "Add login")) /\
  ok response_500 = false /\
  exists final msg,
    step waiting (Settle 0 (FetchResolved response_500)) = Some final /\
    lifecycle (ui final) = Failed /\
    error (ui final) = Some msg /\
    plan (ui final) = plan (ui waiting) /\
    msg = lit "API error: " ++ N_digits (status response_500)
          ++ lit " " ++ statusText response_500 /\
    includes msg (N_digits (status response_500)) = true /\
    includes msg (statusText response_500) = true /\
    (status response_500 = 500%N -> includes msg (lit "500") = true).
Proof.
  split; [reflexivity|]. split; [reflexivity|].
  apply (transport_failure_reported Reference.JSON_parse
           Reference.TypeError_message waiting 0 (req := request (lit "Add login"))
           response_500); reflexivity.
Defined.

Lemma missing_text_reported_witness :
  nth_error (inflight waiting) 0 = Some (request (lit "Add login")) /\
  ok response_without_text = true /\
  nullish envelope_without_content = false /\
  at_path text_path envelope_without_content = None /\
  exists final,
    step waiting (Settle 0 (FetchResolved response_without_text)) = Some final /\
    lifecycle (ui final) = Failed /\
    error (ui final)
    = Some (lit "Invalid response structure from AI model.") /\
    plan (ui final) = plan (ui waiting).
Proof.
  repeat (split; [reflexivity|]).
  apply (missing_text_reported Reference.JSON_parse
           Reference.TypeError_message waiting 0 (req := request (lit "Add login"))
           response_without_text
           (result := envelope_without_content)); reflexivity.
Defined.

Lemma text_payload_decoded_witness :
  at_path text_path (envelope_of (VStr trailing_comma_text))
  = Some (VStr trailing_comma_text) /\
  trailing_comma_text <> [] /\
  Reference.JSON_parse (VStr trailing_comma_text)
  = Throws Reference.SyntaxError /\
  step waiting (Settle 0 (FetchResolved (response_with trailing_comma_text)))
  = Some {| ui := {| prompt := lit "Add login";
                     plan := VNull;
                     isLoading := false;
                     error := Some (lit "Unexpected token in JSON") |};
            rendered := rendered waiting;
            inflight := [] |}.
Proof.
  assert (Hne : trailing_comma_text <> []) by discriminate.
  split; [reflexivity|]. split; [exact Hne|]. split; [reflexivity|].
  exact (proj1 (proj1 (text_payload_decoded Reference.JSON_parse
                         Reference.TypeError_message waiting 0
                         (req := request (lit "Add login"))
                         (response_with trailing_comma_text)
                         (result := envelope_of (VStr trailing_comma_text))
                         eq_refl eq_refl eq_refl eq_refl)
                      Hne Reference.SyntaxError eq_refl)).
Defined.

(** C9, as stated, fails.  The text [{}] is valid JSON and is no plan; the
    interface stores the empty object as the plan, the error cell stays
    empty, and the state reached is not the error state. *)
Lemma shapeless_payload_stored :
  at_path text_path (envelope_of (VStr empty_object_text))
  = Some (VStr empty_object_text) /\
  Reference.JSON_parse (VStr empty_object_text) = Returns (VObj []) /\
  is_plan_shape (VObj []) = false /\
  exists final,
    step waiting (Settle 0 (FetchResolved (response_with empty_object_text)))
    = Some final /\
    plan (ui final) = VObj [] /\
    error (ui final) = None /\
    lifecycle (ui final) = Success /\
    lifecycle (ui final) <> Failed.
Proof.
  repeat (split; [reflexivity|]).
  eexists. split; [reflexivity|].
  repeat split. discriminate.
Qed.

(** C8, as stated, fails.  A response with a success status whose body is
    [null] has no candidate, no content, no parts and no text; reading
    [candidates] from it throws, and the message stored is that of the
    [TypeError], not ["Invalid response structure from AI model."]. *)
Lemma null_body_is_not_reported_as_structure :
  ok response_null = true /\
  json response_null = BodyJson VNull /\
  at_path text_path VNull = None /\
  exists final,
    step waiting (Settle 0 (FetchResolved response_null)) = Some final /\
    lifecycle (ui final) = Failed /\
    error (ui final)
    = Some (lit "Cannot read properties of null (reading 'candidates')") /\
    error (ui final)
    <> Some (lit "Invalid response structure from AI model.").
Proof.
  repeat (split; [reflexivity|]).
  eexists. split; [reflexivity|].
  repeat split. discriminate.
Qed.

(** A body that is [null] is no envelope: reading [candidates] from it
    throws, and the message stored is the engine's. *)
Lemma null_body_type_error :
  step waiting (Settle 0 (FetchResolved response_null))
  = Some {| ui := {| prompt := lit "Add login";
                     plan := VNull;
                     isLoading := false;
                     error :=
                       Some (lit "Cannot read properties of null (reading 'candidates')") |};
            rendered := rendered waiting;
            inflight := [] |}.
Proof. reflexivity. Qed.

(** The example of the specification: the payload is decoded and stored,
    its one task has status ["todo"], and a toggle of id 1 makes it
    ["done"]. *)
Lemma login_plan_stored_and_toggled :
  exists stored toggled_once,
    run waiting [Settle 0 (FetchResolved (response_with login_text))]
    = Some stored /\
    lifecycle (ui stored) = Success /\
    is_plan_shape (plan (ui stored)) = true /\
    at_path [Field (lit "tasks"); Index 0; Field (lit "status")]
            (plan (ui stored)) = Some (VStr (lit "todo")) /\
    step stored (Toggle (num_of_Z 1)) = Some toggled_once /\
    at_path [Field (lit "tasks"); Index 0; Field (lit "status")]
            (plan (ui toggled_once)) = Some (VStr (lit "done")) /\
    at_path [Field (lit "title")] (plan (ui toggled_once))
    = Some (VStr (lit "Add login")).
Proof.
  do 2 eexists. split; [reflexivity|].
  repeat split; reflexivity.
Qed.

End Concrete.

(* ================================================================= *)
(** ** More on the toggle of typed plans *)
(* ================================================================= *)

Unset Implicit Arguments.

Section TypedToggle.

Import Model View.
Local Open Scope Z_scope.

Lemma toggled_fields (i : Z) (task : Task.t) :
  let task' := if Task.id task =? i then toggled task else task in
  Task.id task' = Task.id task /\
  Task.title task' = Task.title task /\
  Task.description task' = Task.description task /\
  Task.file_path task' = Task.file_path task /\
  Task.code_snippet task' = Task.code_snippet task.
Proof. simpl. destruct (Task.id task =? i); repeat split. Qed.

Lemma map_toggled_field (A : Type) (f : Task.t -> A) (i : Z)
  (l : list Task.t) :
  (forall task, f (toggled task) = f task) ->
  List.map f (List.map (fun task =>
                          if Task.id task =? i then toggled task else task) l)
  = List.map f l.
Proof.
  intros Hf. rewrite map_map. apply map_ext. intros task.
  destruct (Task.id task =? i); [apply Hf|reflexivity].
Qed.

(** X1.  A toggle keeps the title of the plan and, task by task and in
    order, the ids, titles, descriptions, file paths and code snippets; so
    it keeps the number of tasks, and ids that were distinct stay so. *)
Theorem toggleTask_keeps_texts (P : Plan.t) (i : Z) :
  Plan.title (toggleTask P i) = Plan.title P /\
  List.map Task.id (Plan.tasks (toggleTask P i))
  = List.map Task.id (Plan.tasks P) /\
  List.map Task.title (Plan.tasks (toggleTask P i))
  = List.map Task.title (Plan.tasks P) /\
  List.map Task.description (Plan.tasks (toggleTask P i))
  = List.map Task.description (Plan.tasks P) /\
  List.map Task.file_path (Plan.tasks (toggleTask P i))
  = List.map Task.file_path (Plan.tasks P) /\
  List.map Task.code_snippet (Plan.tasks (toggleTask P i))
  = List.map Task.code_snippet (Plan.tasks P) /\
  List.length (Plan.tasks (toggleTask P i)) = List.length (Plan.tasks P) /\
  (NoDup (List.map Task.id (Plan.tasks P)) <->
   NoDup (List.map Task.id (Plan.tasks (toggleTask P i)))).
Proof.
  assert (Hid : List.map Task.id (Plan.tasks (toggleTask P i))
                = List.map Task.id (Plan.tasks P))
    by now apply map_toggled_field.
  split; [reflexivity|]. split; [exact Hid|].
  repeat split; try (now apply map_toggled_field).
  - apply length_map.
  - now rewrite Hid.
  - now rewrite Hid.
Qed.

(** X2.  Toggles commute: toggling [i] then [j] gives the plan that
    toggling [j] then [i] gives, whether the ids are equal, distinct,
    present or not. *)
Theorem toggleTask_commutes (P : Plan.t) (i j : Z) :
  toggleTask (toggleTask P i) j = toggleTask (toggleTask P j) i.
Proof.
  unfold toggleTask; simpl. f_equal. rewrite !map_map. apply map_ext.
  intros task.
  destruct (Task.id task =? i) eqn:Ei, (Task.id task =? j) eqn:Ej;
    cbn [toggled Task.id]; rewrite ?Ei, ?Ej; reflexivity.
Qed.

(** X3.  A toggle changes the status of a task exactly when the id of the
    task is the id toggled: every task with that id flips, also when
    several share it, and no other task does. *)
Theorem toggleTask_flips_exactly_the_matching (P : Plan.t) (i : Z)
  (k : nat) (task : Task.t) :
  nth_error (Plan.tasks P) k = Some task ->
  exists task',
    nth_error (Plan.tasks (toggleTask P i)) k = Some task' /\
    (Task.status task' <> Task.status task <-> Task.id task = i).
Proof.
  intros Hk. unfold toggleTask; cbn [Plan.tasks].
  rewrite nth_error_map, Hk. cbn [option_map].
  eexists. split; [reflexivity|].
  destruct (Z.eqb_spec (Task.id task) i) as [E|E].
  - split; [intros _; exact E|intros _].
    destruct task as [a b c [|] d e]; discriminate.
  - split; [intros H; now contradiction H|intros H; contradiction].
Qed.

(** X15.  A click on the button of a card asks for a toggle of the id of
    its task; in the cards of the plan so toggled, the card clicked has the
    look of the other status and the texts it had, and so has every card
    whose task shares the id; every other card is the card it was. *)
Theorem click_relights_the_card (P : Plan.t) (k : nat) (task : Task.t) :
  nth_error (Plan.tasks P) k = Some task ->
  let P' := toggleTask P (click (TaskCard task)) in
  nth_error (cards P') k = Some (relit (TaskCard task)) /\
  List.length (cards P') = List.length (cards P) /\
  forall j other,
    nth_error (Plan.tasks P) j = Some other ->
    nth_error (cards P') j
    = Some (if Task.id other =? Task.id task
            then relit (TaskCard other)
            else TaskCard other).
Proof.
  intros Hk P'.
  assert (H : forall j other,
             nth_error (Plan.tasks P) j = Some other ->
             nth_error (cards P') j
             = Some (if Task.id other =? Task.id task
                     then relit (TaskCard other)
                     else TaskCard other)).
  { intros j other Hj. unfold cards, P', toggleTask; cbn [Plan.tasks click TaskCard].
    rewrite !nth_error_map, Hj. cbn [option_map]. f_equal.
    destruct (Task.id other =? Task.id task); [|reflexivity].
    destruct other as [a b c [|] d e]; reflexivity. }
  split; [|split; [|exact H]].
  - rewrite (H k task Hk). now rewrite Z.eqb_refl.
  - unfold cards, P', toggleTask; cbn [Plan.tasks]. now rewrite !length_map.
Qed.

End TypedToggle.

Lemma toggleTask_flips_exactly_the_matching_witness :
  nth_error (Plan.tasks MoreSamples.repeated_plan) 2
  = Some (Samples.sample_task 1 done) /\
  exists task',
    nth_error (Plan.tasks (Model.toggleTask MoreSamples.repeated_plan 1)) 2
    = Some task' /\
    (Task.status task' <> Task.status (Samples.sample_task 1 done)
     <-> Task.id (Samples.sample_task 1 done) = 1%Z).
Proof.
  split; [reflexivity|].
  exact (toggleTask_flips_exactly_the_matching
           MoreSamples.repeated_plan 1 2 _ eq_refl).
Defined.

Lemma click_relights_the_card_witness :
  nth_error (Plan.tasks MoreSamples.repeated_plan) 0
  = Some (Samples.sample_task 1 todo) /\
  nth_error
    (View.cards
       (Model.toggleTask MoreSamples.repeated_plan
          (View.click (View.TaskCard (Samples.sample_task 1 todo))))) 0
  = Some (View.relit (View.TaskCard (Samples.sample_task 1 todo))).
Proof.
  split; [reflexivity|].
  exact (proj1 (click_relights_the_card MoreSamples.repeated_plan 0 _
                  eq_refl)).
Defined.

(* ================================================================= *)
(** ** The toggle on stored values *)
(* ================================================================= *)

(** Two literals of the source differ. *)
Ltac lit_neq := let H := fresh in intro H; vm_compute in H; discriminate H.

Section StoredToggle.

Import View.

Lemma str_eqb_neq (s t : js_string) : s <> t -> str_eqb s t = false.
Proof.
  intros H. destruct (str_eqb s t) eqn:E; [|reflexivity].
  apply str_eqb_eq in E. contradiction.
Qed.

(** Reading back what a spread has set, and what it has not touched. *)
Lemma lookup_set_prop_same (k : js_string) (x : value)
  (l : list (js_string * value)) :
  lookup k (set_prop k x l) = Some x.
Proof.
  induction l as [|[b y] l IH]; simpl.
  - now rewrite str_eqb_refl.
  - destruct (str_eqb b k) eqn:E; simpl; now rewrite E.
Qed.

Lemma lookup_set_prop_other (k k' : js_string) (x : value)
  (l : list (js_string * value)) :
  k <> k' -> lookup k' (set_prop k x l) = lookup k' l.
Proof.
  intros Hne. induction l as [|[b y] l IH]; simpl.
  - now rewrite (str_eqb_neq _ _ Hne).
  - destruct (str_eqb b k) eqn:E; simpl.
    + apply str_eqb_eq in E; subst b. now rewrite (str_eqb_neq _ _ Hne).
    + now rewrite IH.
Qed.

Lemma set_prop_twice (k : js_string) (x y : value)
  (l : list (js_string * value)) :
  set_prop k x (set_prop k y l) = set_prop k x l.
Proof.
  induction l as [|[b z] l IH]; simpl.
  - now rewrite str_eqb_refl.
  - destruct (str_eqb b k) eqn:E; simpl; rewrite E; [reflexivity|].
    now rewrite IH.
Qed.

Variable taskId : number.

Local Abbreviation T := (Controller.toggle_task taskId).
Local Abbreviation U := (Controller.toggle_updater taskId).

(** The status that the toggle writes. *)
Local Abbreviation written props :=
  (VStr (if strict_eq_str (get_prop (VObj props) (lit "status")) (lit "todo")
         then lit "done" else lit "todo")).

Lemma toggle_task_throws (task : value) :
  T task = None <-> nullish task = true.
Proof.
  unfold Controller.toggle_task, member.
  destruct (nullish task); [now split|].
  destruct (strict_eq_num _ _); split; discriminate.
Qed.

Lemma toggle_task_returns (task task' : value) :
  T task = Some task' ->
  (task' = task /\ strict_eq_num (get_prop task (lit "id")) taskId = false) \/
  (exists props,
     task = VObj props /\
     strict_eq_num (get_prop task (lit "id")) taskId = true /\
     task' = VObj (set_prop (lit "status") (written props) props)).
Proof.
  unfold Controller.toggle_task, member.
  destruct (nullish task); [discriminate|].
  destruct (strict_eq_num (get_prop task (lit "id")) taskId) eqn:E;
    intros H; inversion H; subst; [right|now left].
  destruct task as [| | | | | |props]; try discriminate.
  now exists props.
Qed.

Lemma toggle_task_match (props : list (js_string * value)) :
  strict_eq_num (get_prop (VObj props) (lit "id")) taskId = true ->
  T (VObj props) = Some (VObj (set_prop (lit "status") (written props) props)).
Proof.
  intros H. unfold Controller.toggle_task, member. cbn [nullish].
  now rewrite H.
Qed.

Lemma id_after_status (x : value) (props : list (js_string * value)) :
  get_prop (VObj (set_prop (lit "status") x props)) (lit "id")
  = get_prop (VObj props) (lit "id").
Proof.
  unfold get_prop. rewrite lookup_set_prop_other; [reflexivity|lit_neq].
Qed.

Lemma status_after_status (x : value) (props : list (js_string * value)) :
  get_prop (VObj (set_prop (lit "status") x props)) (lit "status") = x.
Proof. unfold get_prop. now rewrite lookup_set_prop_same. Qed.

Lemma toggle_task_again (task t1 : value) :
  T task = Some t1 ->
  exists t2, T t1 = Some t2 /\ T t2 = Some t1.
Proof.
  intros H. destruct (toggle_task_returns _ _ H) as [[-> Hno]|(props & -> & Hid & ->)].
  - exists task. split; exact H.
  - set (s1 := written props).
    assert (Hid1 : forall x,
               strict_eq_num
                 (get_prop (VObj (set_prop (lit "status") x props)) (lit "id"))
                 taskId = true)
      by (intros x; now rewrite id_after_status).
    eexists. split.
    + rewrite (toggle_task_match _ (Hid1 s1)). rewrite set_prop_twice.
      reflexivity.
    + rewrite (toggle_task_match _ (Hid1 _)). rewrite set_prop_twice.
      do 2 f_equal. rewrite !status_after_status.
      unfold s1.
      destruct (strict_eq_str (get_prop (VObj props) (lit "status"))
                              (lit "todo")); reflexivity.
Qed.

Lemma map_toggle_again (l l1 : list value) :
  map_throwing T l = Some l1 ->
  exists l2, map_throwing T l1 = Some l2 /\ map_throwing T l2 = Some l1.
Proof.
  revert l1. induction l as [|task l IH]; intros l1; simpl.
  - intros H; inversion H; subst. now exists [].
  - destruct (Controller.toggle_task taskId task) as [t1|] eqn:Et;
      [|discriminate].
    destruct (map_throwing _ l) as [l1'|]; [|discriminate].
    intros H; inversion H; subst.
    destruct (toggle_task_again _ _ Et) as (t2 & H12 & H21).
    destruct (IH l1' eq_refl) as (l2 & Hl12 & Hl21).
    exists (t2 :: l2). simpl. now rewrite H12, Hl12, H21, Hl21.
Qed.

Lemma toggle_updater_returns (v v1 : value) :
  U v = Some v1 ->
  (truthy v = false /\ v1 = VNull) \/
  (exists props tasks tasks1,
     v = VObj props /\
     get_prop v (lit "tasks") = VArr tasks /\
     map_throwing T tasks = Some tasks1 /\
     v1 = VObj (set_prop (lit "tasks") (VArr tasks1) props)).
Proof.
  unfold Controller.toggle_updater.
  destruct (truthy v) eqn:Et; cbn [negb];
    [|intros H; inversion H; now left].
  destruct (get_prop v (lit "tasks")) as [| | | | |tasks|] eqn:Eg;
    try discriminate.
  cbn [array_map].
  destruct (map_throwing _ tasks) as [tasks1|] eqn:Em; [|discriminate].
  intros H; inversion H; subst. right.
  destruct v as [| | | | | |props]; try discriminate.
  now exists props, tasks, tasks1.
Qed.

Lemma toggle_updater_object (props : list (js_string * value))
  (tasks tasks1 : list value) :
  get_prop (VObj props) (lit "tasks") = VArr tasks ->
  map_throwing T tasks = Some tasks1 ->
  U (VObj props) = Some (VObj (set_prop (lit "tasks") (VArr tasks1) props)).
Proof.
  intros Hg Hm. unfold Controller.toggle_updater. cbn [truthy negb].
  rewrite Hg. cbn [array_map]. now rewrite Hm.
Qed.

Lemma tasks_after_tasks (x : value) (props : list (js_string * value)) :
  get_prop (VObj (set_prop (lit "tasks") x props)) (lit "tasks") = x.
Proof. unfold get_prop. now rewrite lookup_set_prop_same. Qed.

(** X4.  On whatever value is stored, once a toggle has gone through, two
    more toggles of the same id through it give its result back: from the
    first toggle on the status of a matching task is ["todo"] or ["done"]
    and toggling is an involution, even when the status the generator sent
    was neither. *)
Theorem toggle_is_involutive_after_the_first (v v1 : value) :
  U v = Some v1 ->
  exists v2, U v1 = Some v2 /\ U v2 = Some v1.
Proof.
  intros H.
  destruct (toggle_updater_returns _ _ H)
    as [[_ ->]|(props & tasks & tasks1 & -> & Hg & Hm & ->)].
  - now exists VNull.
  - destruct (map_toggle_again _ _ Hm) as (tasks2 & H12 & H21).
    eexists. split.
    + rewrite (toggle_updater_object _ _ _ (tasks_after_tasks _ _) H12).
      rewrite set_prop_twice. reflexivity.
    + rewrite (toggle_updater_object _ _ _ (tasks_after_tasks _ _) H21).
      now rewrite set_prop_twice.
Qed.

Lemma map_toggle_throws (l : list value) :
  map_throwing T l = None <-> existsb nullish l = true.
Proof.
  induction l as [|task l IH]; simpl; [split; discriminate|].
  destruct (Controller.toggle_task taskId task) as [t1|] eqn:Et.
  - assert (Hn : nullish task = false).
    { destruct (nullish task) eqn:E; [|reflexivity].
      apply toggle_task_throws in E. congruence. }
    rewrite Hn. cbn [orb].
    destruct (map_throwing _ l); [|exact IH].
    split; [discriminate|]. intros H. apply IH in H. discriminate.
  - apply toggle_task_throws in Et. rewrite Et. now split.
Qed.

(** X6.  A toggle throws exactly when the stored value is truthy and its
    [tasks] is not an array, or is an array that holds a [null]; the id
    asked for plays no part in it.  A falsy stored value does not throw. *)
Theorem toggle_throws_iff (v : value) :
  U v = None <->
  truthy v = true /\
  match get_prop v (lit "tasks") with
  | VArr tasks => existsb nullish tasks = true
  | _ => True
  end.
Proof.
  unfold Controller.toggle_updater.
  destruct (truthy v); cbn [negb]; [|split; [discriminate|intros [H _]; discriminate]].
  destruct (get_prop v (lit "tasks")) as [| | | | |tasks|]; cbn [array_map];
    try (split; [intros _; now split|reflexivity]).
  rewrite <- map_toggle_throws.
  destruct (map_throwing _ tasks); cbn [option_map].
  - split; [discriminate|intros [_ H]; discriminate].
  - split; [intros _; now split|reflexivity].
Qed.

Lemma elements_throws (l : list value) :
  elements l = None <-> existsb nullish l = true.
Proof.
  induction l as [|task l IH]; simpl; [split; discriminate|].
  unfold member. destruct (nullish task); cbn [orb]; [now split|].
  destruct (elements l); [|exact IH].
  split; [discriminate|]. intros H. apply IH in H. discriminate.
Qed.

(** X14.  The render of a stored plan throws exactly when a toggle on it
    would: the values on which [plan.tasks.map] throws in [App] are the
    values on which it throws in the updater. *)
Theorem render_throws_iff_toggle_throws (st : State) :
  truthy (plan st) = true ->
  (main st = None <-> handleToggleTask taskId st = None).
Proof.
  intros Ht.
  unfold main, card_elements, handleToggleTask, Controller.toggle_updater.
  rewrite Ht. cbn [negb].
  destruct (get_prop (plan st) (lit "tasks")) as [| | | | |tasks|];
    cbn [array_map]; try (split; reflexivity).
  pose proof (elements_throws tasks) as He.
  pose proof (map_toggle_throws tasks) as Hm.
  destruct (elements tasks), (map_throwing _ tasks); cbn [option_map].
  - split; discriminate.
  - split; [discriminate|]. intros _.
    pose proof (proj2 He (proj1 Hm eq_refl)). discriminate.
  - split; [|discriminate]. intros _.
    pose proof (proj2 Hm (proj1 He eq_refl)). discriminate.
  - split; reflexivity.
Qed.

End StoredToggle.

Section StoredShape.

Variable taskId : number.

Local Abbreviation T := (Controller.toggle_task taskId).
Local Abbreviation U := (Controller.toggle_updater taskId).

Lemma other_after_status (k : js_string) (x : value)
  (props : list (js_string * value)) :
  lit "status" <> k ->
  get_prop (VObj (set_prop (lit "status") x props)) k
  = get_prop (VObj props) k.
Proof. intros H. unfold get_prop. now rewrite lookup_set_prop_other. Qed.

Lemma toggle_task_shape (task : value) :
  is_task_shape task = true ->
  exists task', T task = Some task' /\ is_task_shape task' = true.
Proof.
  intros Hs. destruct task as [| | | | | |props]; try discriminate.
  unfold Controller.toggle_task, member. cbn [nullish].
  destruct (strict_eq_num (get_prop (VObj props) (lit "id")) taskId);
    [|now exists (VObj props)].
  eexists. split; [reflexivity|].
  unfold spread_with, own_enumerable, is_task_shape in *.
  rewrite status_after_status.
  rewrite !other_after_status by lit_neq.
  apply andb_true_iff in Hs as [Hs Hc]. apply andb_true_iff in Hs as [Hs Hf].
  apply andb_true_iff in Hs as [Hs _]. rewrite Hs, Hf, Hc.
  destruct (strict_eq_str (get_prop (VObj props) (lit "status")) (lit "todo"));
    reflexivity.
Qed.

Lemma map_toggle_shape (l : list value) :
  forallb is_task_shape l = true ->
  exists l', map_throwing T l = Some l' /\ forallb is_task_shape l' = true.
Proof.
  induction l as [|task l IH]; simpl; [now exists []|].
  intros H. apply andb_true_iff in H as [Ht Hl].
  destruct (toggle_task_shape task Ht) as (task' & -> & Ht').
  destruct (IH Hl) as (l' & -> & Hl').
  exists (task' :: l'). split; [reflexivity|]. simpl. now rewrite Ht', Hl'.
Qed.

(** One toggle of a value that has the shape of a plan. *)
Lemma toggle_updater_shape (v : value) :
  is_plan_shape v = true ->
  exists v', U v = Some v' /\ is_plan_shape v' = true.
Proof.
  intros Hs. destruct v as [| | | | | |props]; try discriminate.
  unfold is_plan_shape in Hs. apply andb_true_iff in Hs as [Htitle Htasks].
  destruct (get_prop (VObj props) (lit "tasks")) as [| | | | |tasks|] eqn:Eg;
    try discriminate.
  destruct (map_toggle_shape tasks Htasks) as (tasks' & Hm & Hs').
  eexists. split; [exact (toggle_updater_object taskId _ _ _ Eg Hm)|].
  unfold is_plan_shape. rewrite tasks_after_tasks.
  unfold get_prop at 1. rewrite lookup_set_prop_other by lit_neq.
  unfold get_prop in Htitle. now rewrite Htitle.
Qed.

End StoredShape.

Lemma shaped_tasks_render (l : list value) :
  forallb is_task_shape l = true -> exists es, View.elements l = Some es.
Proof.
  induction l as [|task l IH]; simpl; [now exists []|].
  intros H. apply andb_true_iff in H as [Ht Hl].
  destruct task as [| | | | | |props]; try discriminate.
  destruct (IH Hl) as (es & ->). cbn. now eexists.
Qed.

Section ShapedPlan.

Variable JSON_parse : value -> completion value.
Variable TypeError_message : value -> js_string -> js_string.

Local Abbreviation run := (Controller.run JSON_parse TypeError_message).

(** X5.  Once the plan stored has the shape of a plan, no toggle throws
    and no render does, however many toggles follow and whatever ids they
    name: each leaves a value of that shape in the plan cell, which the
    render shows, and touches nothing else. *)
Theorem shaped_plan_survives_toggles (ids : list number) (sys : System) :
  is_plan_shape (plan (ui sys)) = true ->
  exists sys',
    run sys (List.map Toggle ids) = Some sys' /\
    is_plan_shape (plan (ui sys')) = true /\
    inflight sys' = inflight sys /\
    rendered sys' = rendered sys /\
    prompt (ui sys') = prompt (ui sys) /\
    isLoading (ui sys') = isLoading (ui sys) /\
    error (ui sys') = error (ui sys) /\
    exists view, View.main (ui sys') = Some view /\
                 View.shows_plan view = true.
Proof.
  revert sys. induction ids as [|taskId ids IH]; intros sys Hs.
  - exists sys. split; [reflexivity|]. split; [exact Hs|].
    repeat (split; [reflexivity|]).
    unfold View.main, View.card_elements.
    destruct (plan (ui sys)) as [| | | | | |props] eqn:Ep; try discriminate.
    unfold is_plan_shape in Hs. apply andb_true_iff in Hs as [_ Hs].
    cbn [truthy].
    destruct (get_prop (VObj props) (lit "tasks")) as [| | | | |tasks|];
      try discriminate.
    destruct (shaped_tasks_render tasks Hs) as (es & ->).
    eexists. split; reflexivity.
  - destruct (toggle_updater_shape taskId _ Hs) as (v' & Hu & Hs').
    cbn [List.map Controller.run Controller.step]. unfold handleToggleTask.
    rewrite Hu.
    destruct (IH {| ui := {| prompt := prompt (ui sys);
                             plan := v';
                             isLoading := isLoading (ui sys);
                             error := error (ui sys) |};
                    rendered := rendered sys;
                    inflight := inflight sys |} Hs')
      as (sys' & Hr & Hshape & Hi & Hrd & Hp & Hl & He & Hview).
    exists sys'. repeat split; assumption.
Qed.

End ShapedPlan.

(* ================================================================= *)
(** ** More on the controller *)
(* ================================================================= *)

Lemma trimStart_nil (s : js_string) :
  trimStart s = [] -> forallb is_whitespace s = true.
Proof.
  induction s as [|c s IH]; simpl; [reflexivity|].
  destruct (is_whitespace c); [exact IH|discriminate].
Qed.

Lemma trimStart_head (s r : js_string) (c : code_unit) :
  trimStart s = c :: r -> is_whitespace c = false.
Proof.
  induction s as [|d s IH]; simpl; [discriminate|].
  destruct (is_whitespace d) eqn:E; [exact IH|].
  intros H; inversion H; subst. exact E.
Qed.

(** A string trims to the empty string exactly when it holds nothing but
    white space. *)
Lemma trim_empty_iff (s : js_string) :
  trim s = [] <-> forallb is_whitespace s = true.
Proof.
  split; [|apply trim_blank].
  unfold trim, trimEnd. intros H.
  assert (Hr : trimStart (List.rev (trimStart s)) = []).
  { apply (f_equal (@List.rev _)) in H. now rewrite rev_involutive in H. }
  apply trimStart_nil in Hr.
  destruct (trimStart s) as [|c r] eqn:Et; [now apply trimStart_nil|].
  apply trimStart_head in Et.
  rewrite forallb_forall in Hr.
  rewrite (Hr c) in Et; [discriminate|].
  apply -> in_rev. now left.
Qed.

Section MoreControllerProperties.

Variable JSON_parse : value -> completion value.
Variable TypeError_message : value -> js_string -> js_string.

Local Abbreviation step := (Controller.step JSON_parse TypeError_message).
Local Abbreviation run := (Controller.run JSON_parse TypeError_message).
Local Abbreviation settle := (Controller.settle JSON_parse TypeError_message).
Local Abbreviation try_block :=
  (Controller.try_block JSON_parse TypeError_message).
Local Abbreviation read_response :=
  (Controller.read_response JSON_parse TypeError_message).
Local Abbreviation reachable :=
  (Controller.reachable JSON_parse TypeError_message).

(** X7.  A submit is ignored exactly when a request is in flight or the
    prompt holds nothing but white space; otherwise the request leaves
    with the prompt as typed, not trimmed. *)
Theorem submit_ignored_iff (st : State) :
  (handleSubmit st = Ignored <->
   isLoading st = true \/ forallb is_whitespace (prompt st) = true) /\
  (handleSubmit st <> Ignored ->
   exists st', handleSubmit st = Dispatched st' (request (prompt st)) /\
               contents_text (body (request (prompt st))) = prompt st).
Proof.
  unfold handleSubmit. rewrite <- trim_empty_iff.
  destruct (trim (prompt st)) eqn:Et, (isLoading st); cbn [truthy negb orb].
  - split; [split; auto|intros H; now contradiction H].
  - split; [split; auto|intros H; now contradiction H].
  - split; [split; auto|intros H; now contradiction H].
  - split.
    + split; [discriminate|intros [H|H]; discriminate].
    + intros _. eexists. split; reflexivity.
Qed.

(** X12.  The submit button that a render shows is disabled exactly when
    a submit handled by that render does nothing: with the button disabled
    the submit event leaves the system as it is, and with the button
    enabled it puts a request in flight. *)
Theorem button_disabled_iff_submit_idle (sys : System) :
  (View.button_disabled (View.form (rendered sys)) = true
   <-> step sys Submit = Some sys) /\
  (View.button_disabled (View.form (rendered sys)) = false
   <-> exists st',
         step sys Submit
         = Some {| ui := st';
                   rendered := rendered sys;
                   inflight :=
                     inflight sys ++ [request (prompt (rendered sys))] |}).
Proof.
  assert (Hgrow : forall st' rd req,
             {| ui := st'; rendered := rd;
                inflight := inflight sys ++ [req] |} <> sys).
  { intros st' rd req H.
    apply (f_equal (fun s => List.length (inflight s))) in H.
    cbn [inflight] in H. rewrite length_app in H. simpl in H. lia. }
  unfold View.form; cbn [View.button_disabled Controller.step].
  unfold handleSubmit. rewrite (orb_comm (isLoading (rendered sys))).
  destruct (negb (truthy (VStr (trim (prompt (rendered sys)))))
            || isLoading (rendered sys)).
  - split; [split; auto|].
    split; [discriminate|]. intros [st' H]. inversion H as [E].
    exfalso. exact (Hgrow _ _ _ (eq_sym E)).
  - split.
    + split; [discriminate|]. intros H. inversion H as [E].
      exfalso. exact (Hgrow _ _ _ E).
    + split; [|reflexivity]. intros _. eexists. reflexivity.
Qed.

(** X8.  The [try] block hands a plan to [setPlan] exactly when the
    request resolved with a success status, the body decoded to a value
    in which the path [candidates[0].content.parts[0].text] finds a truthy
    value, and [JSON.parse] returned for that value; the plan is what
    [JSON.parse] returned.  The value found is not asked to be a string. *)
Theorem plan_decoded_iff (outcome : FetchOutcome) (v : value) :
  try_block outcome = Returns v <->
  exists response result text,
    outcome = FetchResolved response /\
    ok response = true /\
    json response = BodyJson result /\
    at_path text_path result = Some text /\
    truthy text = true /\
    JSON_parse text = Returns v.
Proof.
  split.
  - destruct outcome as [err|response]; [discriminate|].
    cbn [Controller.try_block]. intros H.
    destruct (ok response) eqn:Hok;
      [|unfold Controller.read_response in H; rewrite Hok in H; discriminate].
    destruct (json response) as [result|err] eqn:Hjson;
      [|unfold Controller.read_response in H; rewrite Hok, Hjson in H;
        discriminate].
    destruct (nullish result) eqn:Hn.
    + unfold Controller.read_response, member in H.
      rewrite Hok, Hjson, Hn in H. discriminate.
    + rewrite (@read_response_envelope JSON_parse TypeError_message
                 response result Hok Hjson Hn) in H.
      cbv zeta in H.
      destruct (truthy (fold_left opt_child text_path result)) eqn:Ht;
        [|discriminate].
      exists response, result, (fold_left opt_child text_path result).
      repeat split; try assumption.
      unfold text_path in *. rewrite at_path_chain.
      destruct (fold_left opt_child _ result); try reflexivity; discriminate.
  - intros (response & result & text & -> & Hok & Hjson & Hpath & Ht & Hp).
    assert (Hn : nullish result = false).
    { destruct result; try reflexivity; discriminate. }
    cbn [Controller.try_block].
    rewrite (@read_response_envelope JSON_parse TypeError_message
               response result Hok Hjson Hn).
    cbv zeta. unfold text_path in *. rewrite at_path_chain in Hpath.
    destruct (fold_left opt_child _ result); try discriminate;
      inversion Hpath; subst; now rewrite Ht.
Qed.

(** X9.  When [fetch] rejects, or the body of a response with a success
    status does not decode, the interface reaches the error state with the
    message of the exception and the plan cell as it was; with an empty
    message it shows the fallback ["An unexpected error occurred. Please
    try again."]. *)
Theorem rejection_reported (sys : System) (n : nat)
  (req : Request) (outcome : FetchOutcome) (err : Error) :
  nth_error (inflight sys) n = Some req ->
  outcome = FetchRejected err \/
  (exists response,
     outcome = FetchResolved response /\ ok response = true /\
     json response = BodyRejected err) ->
  step sys (Settle n outcome)
  = Some {| ui := {| prompt := prompt (ui sys);
                     plan := plan (ui sys);
                     isLoading := false;
                     error := Some (or_else (message err) fallback) |};
            rendered := rendered sys;
            inflight := without n (inflight sys) |} /\
  lifecycle {| prompt := prompt (ui sys);
               plan := plan (ui sys);
               isLoading := false;
               error := Some (or_else (message err) fallback) |} = Failed /\
  (message err = [] -> or_else (message err) fallback = fallback) /\
  (message err <> [] -> or_else (message err) fallback = message err).
Proof.
  intros Hin Hout.
  assert (Ht : try_block outcome = Throws err).
  { destruct Hout as [->|(response & -> & Hok & Hjson)]; [reflexivity|].
    cbn [Controller.try_block]. unfold Controller.read_response.
    now rewrite Hok, Hjson. }
  split; [|split; [|split]].
  - cbn [Controller.step]. rewrite Hin.
    unfold Controller.settle. now rewrite Ht.
  - unfold lifecycle; cbn. now destruct (message err).
  - now intros ->.
  - destruct (message err); [intros H; now contradiction H|reflexivity].
Qed.

(** X10.  A response with a success status whose body decodes to [null]
    does not reach the test for a text payload: the read of [candidates]
    throws, and the interface reaches the error state with the message of
    the engine's [TypeError], not with ["Invalid response structure from AI
    model."]. *)
Theorem null_body_reported (sys : System) (n : nat)
  (req : Request) (response : Response) (result : value) :
  nth_error (inflight sys) n = Some req ->
  ok response = true ->
  json response = BodyJson result ->
  nullish result = true ->
  step sys (Settle n (FetchResolved response))
  = Some {| ui := {| prompt := prompt (ui sys);
                     plan := plan (ui sys);
                     isLoading := false;
                     error :=
                       Some (or_else
                               (TypeError_message result (lit "candidates"))
                               fallback) |};
            rendered := rendered sys;
            inflight := without n (inflight sys) |}.
Proof.
  intros Hin Hok Hjson Hn.
  cbn [Controller.step]. rewrite Hin.
  unfold Controller.settle, Controller.try_block, Controller.read_response,
    member.
  now rewrite Hok, Hjson, Hn.
Qed.

(** X13.  Every request in flight, in every state the interface can
    reach, was built by [handleSubmit] from a prompt that holds something
    other than white space: it goes to the one URL, by POST, with the fixed
    instruction text, and carries that prompt as it was typed. *)
Theorem requests_carry_a_prompt (sys : System) (req : Request) :
  reachable sys ->
  In req (inflight sys) ->
  req = request (contents_text (body req)) /\
  forallb is_whitespace (contents_text (body req)) = false /\
  url req = apiUrl /\
  method req = lit "POST" /\
  systemInstruction_text (body req) = systemPrompt.
Proof.
  intros Hr. revert req.
  induction Hr as [|sys ev sys' Hr IH Hs]; [intros req []|].
  intros req Hin.
  destruct ev as [text| |taskId|n outcome|]; cbn [Controller.step] in Hs.
  - inversion Hs; subst. exact (IH req Hin).
  - destruct (handleSubmit (rendered sys)) as [|st' r] eqn:Eh.
    + inversion Hs; subst. exact (IH req Hin).
    + apply handleSubmit_dispatched in Eh as (_ & Ht & _ & ->).
      inversion Hs; subst. cbn [inflight] in Hin.
      apply in_app_or in Hin as [Hin|[<-|[]]]; [exact (IH req Hin)|].
      repeat split.
      change (forallb is_whitespace (prompt (rendered sys)) = false).
      destruct (forallb is_whitespace (prompt (rendered sys))) eqn:E;
        [|reflexivity].
      apply trim_blank in E. contradiction.
  - destruct (handleToggleTask taskId (ui sys)); [|discriminate].
    inversion Hs; subst. exact (IH req Hin).
  - destruct (nth_error (inflight sys) n); [|discriminate].
    inversion Hs; subst. cbn [inflight] in Hin. apply IH.
    unfold without in Hin. apply in_app_or in Hin as [Hin|Hin].
    + rewrite <- (firstn_skipn n (inflight sys)). apply in_or_app. now left.
    + rewrite <- (firstn_skipn (S n) (inflight sys)). apply in_or_app.
      now right.
  - inversion Hs; subst. exact (IH req Hin).
Qed.


End MoreControllerProperties.

(* ================================================================= *)
(** ** The copy button *)
(* ================================================================= *)

Section Copy.

Import CodeBlock.

Lemma removeChild_appended (id : nat) (code : js_string) (l : list Node) :
  ~ In id (List.map node_id l) ->
  removeChild id (l ++ [mkNode id code]) = l.
Proof.
  induction l as [|n l IH]; simpl.
  - intros _. now rewrite Nat.eqb_refl.
  - intros H. destruct (Nat.eqb_spec (node_id n) id) as [E|E].
    + exfalso. apply H. now left.
    + f_equal. apply IH. intros Hin. apply H. now right.
Qed.

(** X16.  A click on the copy button leaves the children of the document
    body as they were, whether [execCommand] throws or returns: the
    textarea it appends is removed again.  The check mark is set exactly
    when [execCommand] does not throw, also when it returns [false]. *)
Theorem handleCopy_leaves_the_document (code : js_string) (fresh : nat)
  (outcome : Exec) (w : World) :
  ~ In fresh (List.map node_id (body_children w)) ->
  body_children (handleCopy code fresh outcome w) = body_children w /\
  (copied (handleCopy code fresh outcome w) = true <->
   copied w = true \/ exists done, outcome = ExecReturns done).
Proof.
  intros H. unfold handleCopy.
  destruct outcome as [err|done]; cbn [body_children copied];
    rewrite (removeChild_appended _ _ _ H); (split; [reflexivity|]).
  - split; [now left|]. intros [Hc|[done Hd]]; [exact Hc|discriminate].
  - split; [intros _; right; now exists done|reflexivity].
Qed.

Lemma step_keeps_reset_pending (w w' : World) (ev : Event) :
  (copied w = true -> (0 < timeouts w)%nat) ->
  step w ev = Some w' ->
  copied w' = true -> (0 < timeouts w')%nat.
Proof.
  intros Hinv Hs. destruct ev as [code fresh [err|done]|]; cbn in Hs.
  - inversion Hs; subst; cbn. exact Hinv.
  - inversion Hs; subst; cbn. lia.
  - unfold timeout_runs in Hs. destruct (timeouts w); [discriminate|].
    inversion Hs; subst; cbn. discriminate.
Qed.

Lemma run_keeps_reset_pending (evs : list Event) (w w' : World) :
  (copied w = true -> (0 < timeouts w)%nat) ->
  run w evs = Some w' ->
  copied w' = true -> (0 < timeouts w')%nat.
Proof.
  revert w. induction evs as [|ev evs IH]; intros w Hinv; simpl.
  - intros H; inversion H; subst. exact Hinv.
  - destruct (step w ev) as [w1|] eqn:Es; [|discriminate].
    apply IH. exact (step_keeps_reset_pending w w1 ev Hinv Es).
Qed.

Lemma timeouts_drain (n : nat) (w : World) :
  timeouts w = n ->
  (copied w = true -> (0 < n)%nat) ->
  exists w', run w (repeat Timeout n) = Some w' /\
             copied w' = false /\ timeouts w' = 0%nat /\
             body_children w' = body_children w.
Proof.
  revert w. induction n as [|n IH]; intros w Hn Hinv.
  - exists w. split; [reflexivity|]. split; [|auto].
    destruct (copied w); [|reflexivity]. specialize (Hinv eq_refl). lia.
  - cbn [repeat run step]. unfold timeout_runs. rewrite Hn.
    destruct (IH {| copied := false; body_children := body_children w;
                    timeouts := n |} eq_refl) as (w' & Hr & Hc & Ht & Hb);
      [discriminate|].
    exists w'. auto.
Qed.

(** X17.  The check mark does not stick: after any clicks and timeouts
    from the mount on, whenever [copied] is set a callback that clears it
    is still held by [setTimeout], and once the callbacks held have run,
    [copied] is cleared. *)
Theorem check_mark_is_reset (children : list Node) (evs : list Event)
  (w : World) :
  run (mounted children) evs = Some w ->
  (copied w = true -> (0 < timeouts w)%nat) /\
  exists w', run w (repeat Timeout (timeouts w)) = Some w' /\
             copied w' = false /\ timeouts w' = 0%nat.
Proof.
  intros Hr.
  assert (Hinv : copied w = true -> (0 < timeouts w)%nat).
  { apply (run_keeps_reset_pending evs (mounted children) w);
      [discriminate|exact Hr]. }
  split; [exact Hinv|].
  destruct (timeouts_drain (timeouts w) w eq_refl Hinv)
    as (w' & H1 & H2 & H3 & _).
  now exists w'.
Qed.

End Copy.

(* ================================================================= *)
(** ** The further properties at concrete states *)
(* ================================================================= *)

Section MoreConcrete.

Import MoreSamples.

Local Abbreviation step :=
  (Controller.step Reference.JSON_parse Reference.TypeError_message).
Local Abbreviation reachable :=
  (Controller.reachable Reference.JSON_parse Reference.TypeError_message).

Lemma toggle_is_involutive_after_the_first_witness :
  exists v1 v2,
    toggle_updater (num_of_Z 1) odd_status_plan = Some v1 /\
    toggle_updater (num_of_Z 1) v1 = Some v2 /\
    toggle_updater (num_of_Z 1) v2 = Some v1 /\
    v2 <> odd_status_plan.
Proof.
  eexists.
  destruct (toggle_is_involutive_after_the_first (num_of_Z 1)
              odd_status_plan _ eq_refl) as (v2 & H12 & H21).
  exists v2. split; [reflexivity|]. split; [exact H12|]. split; [exact H21|].
  vm_compute in H12. inversion H12; subst. discriminate.
Defined.

Lemma shaped_plan_survives_toggles_witness :
  is_plan_shape (Model.plan_value Samples.sample_plan) = true /\
  exists sys',
    Controller.run Reference.JSON_parse Reference.TypeError_message
      {| ui := showing; rendered := showing; inflight := [] |}
      (List.map Toggle [num_of_Z 2; num_of_Z 7; num_of_Z 2]) = Some sys' /\
    is_plan_shape (plan (ui sys')) = true.
Proof.
  split; [reflexivity|].
  destruct (shaped_plan_survives_toggles Reference.JSON_parse
              Reference.TypeError_message
              [num_of_Z 2; num_of_Z 7; num_of_Z 2]
              {| ui := showing; rendered := showing; inflight := [] |} eq_refl)
    as (sys' & Hr & Hs & _).
  now exists sys'.
Defined.

Lemma render_throws_iff_toggle_throws_witness :
  truthy (plan shapeless) = true /\
  View.main shapeless = None /\
  handleToggleTask (num_of_Z 1) shapeless = None.
Proof.
  split; [reflexivity|]. split; [reflexivity|].
  exact (proj1 (render_throws_iff_toggle_throws (num_of_Z 1) shapeless
                  eq_refl) eq_refl).
Defined.

Lemma rejection_reported_witness :
  nth_error (inflight waiting) 0 = Some (request (lit "Add login")) /\
  step waiting (Settle 0 (FetchResolved response_undecodable))
  = Some {| ui := {| prompt := lit "Add login";
                     plan := VNull;
                     isLoading := false;
                     error := Some fallback |};
            rendered := rendered waiting;
            inflight := [] |}.
Proof.
  split; [reflexivity|].
  exact (proj1 (rejection_reported Reference.JSON_parse
                  Reference.TypeError_message waiting 0
                  (request (lit "Add login"))
                  (FetchResolved response_undecodable) {| message := [] |}
                  eq_refl
                  (or_intror (ex_intro _ response_undecodable
                                (conj eq_refl (conj eq_refl eq_refl)))))).
Defined.

Lemma null_body_reported_witness :
  nth_error (inflight waiting) 0 = Some (request (lit "Add login")) /\
  nullish VNull = true /\
  step waiting (Settle 0 (FetchResolved response_null))
  = Some {| ui := {| prompt := lit "Add login";
                     plan := VNull;
                     isLoading := false;
                     error :=
                       Some (lit "Cannot read properties of null (reading 'candidates')") |};
            rendered := rendered waiting;
            inflight := [] |}.
Proof.
  split; [reflexivity|]. split; [reflexivity|].
  exact (null_body_reported Reference.JSON_parse Reference.TypeError_message
           waiting 0 (request (lit "Add login")) response_null VNull
           eq_refl eq_refl eq_refl eq_refl).
Defined.

Lemma requests_carry_a_prompt_witness :
  In (request (lit "Add login")) (inflight waiting) /\
  forallb is_whitespace
    (contents_text (body (request (lit "Add login")))) = false /\
  url (request (lit "Add login")) = apiUrl.
Proof.
  assert (Hin : In (request (lit "Add login")) (inflight waiting))
    by (left; reflexivity).
  split; [exact Hin|].
  destruct (requests_carry_a_prompt Reference.JSON_parse
              Reference.TypeError_message waiting _ waiting_reachable Hin)
    as (_ & Hb & Hu & _).
  split; [exact Hb|exact Hu].
Defined.


Lemma handleCopy_leaves_the_document_witness :
  ~ In 2%nat (List.map CodeBlock.node_id page) /\
  CodeBlock.body_children
    (CodeBlock.handleCopy snippet 2 (CodeBlock.ExecReturns false)
       (CodeBlock.mounted page)) = page /\
  CodeBlock.copied
    (CodeBlock.handleCopy snippet 2 (CodeBlock.ExecReturns false)
       (CodeBlock.mounted page)) = true.
Proof.
  assert (Hfresh : ~ In 2%nat (List.map CodeBlock.node_id page)).
  { simpl. intuition discriminate. }
  split; [exact Hfresh|].
  destruct (handleCopy_leaves_the_document snippet 2
              (CodeBlock.ExecReturns false) (CodeBlock.mounted page) Hfresh)
    as [Hb Hc].
  split; [exact Hb|]. apply Hc. right. now exists false.
Defined.

Lemma check_mark_is_reset_witness :
  exists w w',
    CodeBlock.run (CodeBlock.mounted page)
      [ CodeBlock.Click snippet 2 (CodeBlock.ExecReturns true);
        CodeBlock.Click snippet 3 (CodeBlock.ExecReturns true);
        CodeBlock.Timeout ] = Some w /\
    CodeBlock.timeouts w = 1%nat /\
    CodeBlock.run w (repeat CodeBlock.Timeout (CodeBlock.timeouts w))
    = Some w' /\
    CodeBlock.copied w' = false.
Proof.
  eexists.
  destruct (check_mark_is_reset page
              [ CodeBlock.Click snippet 2 (CodeBlock.ExecReturns true);
                CodeBlock.Click snippet 3 (CodeBlock.ExecReturns true);
                CodeBlock.Timeout ] _ eq_refl)
    as (_ & w' & Hr & Hc & _).
  exists w'. split; [reflexivity|]. split; [reflexivity|].
  split; [exact Hr|exact Hc].
Defined.

End MoreConcrete.
